(** * A shallow embedding of the FITS reader (fits/header.py, fits/fits.py)

    The development follows the two source files:
    - [Module Py]: the few Python builtins the code relies on (strings,
      slices, [str.rstrip], [str.replace], [int], decimal formatting);
    - [Module Re]: a backtracking matcher with the priorities of Python's
      [re] (greedy repetition, leftmost alternative first, named groups);
    - [Module Header]: header.py ([KeywordValue], [parse_keyword_value],
      [parse_keyword], [read_block], [read_header]);
    - [Module Fits]: fits.py ([shape_from_header], the dtype functions,
      [skip_data], [hdu], [load]); what the file system, [mmap] and numpy
      answer to the calls of this code is a parameter, [platform].
    The theorems come after the definitions. *)

From Stdlib Require Import String Ascii ZArith NArith QArith Lia Bool.
From Stdlib Require Import DecimalNat Strings.Byte List FinFun.
Import ListNotations.

(** Python [str] values are lists of characters; string literals are read
    through the coercion below. *)
Definition str := list ascii.
Coercion list_ascii_of_string : string >-> list.

Open Scope string_scope.
Open Scope list_scope.
Open Scope Z_scope.

(* ================================================================= *)
(** ** Python builtins used by the reader *)

Module Py.

Fixpoint str_eqb (a b : str) : bool :=
  match a, b with
  | [], [] => true
  | x :: a', y :: b' => Ascii.eqb x y && str_eqb a' b'
  | _, _ => false
  end.

(** [lo <= c <= hi] on character codes, as in a class [[lo-hi]]. *)
Definition between (lo hi c : ascii) : bool :=
  (N_of_ascii lo <=? N_of_ascii c)%N && (N_of_ascii c <=? N_of_ascii hi)%N.

(** [c in chars]. *)
Definition one_of (chars : str) (c : ascii) : bool :=
  existsb (Ascii.eqb c) chars.

Definition is_space (c : ascii) : bool := Ascii.eqb c " ".

(** [str.isspace] on one character (code points below 256). *)
Definition isspace (c : ascii) : bool :=
  let n := N_of_ascii c in
  ((9 <=? n) && (n <=? 13) || (28 <=? n) && (n <=? 32)
   || (n =? 133) || (n =? 160))%N.

(** [s.rstrip(chars)] for the set of characters [p]. *)
Fixpoint rstrip_with (p : ascii -> bool) (s : str) : str :=
  match s with
  | [] => []
  | c :: t =>
      match rstrip_with p t with
      | [] => if p c then [] else [c]
      | t' => c :: t'
      end
  end.

Fixpoint lstrip_with (p : ascii -> bool) (s : str) : str :=
  match s with
  | [] => []
  | c :: t => if p c then lstrip_with p t else s
  end.

(** [s.rstrip(' ')], [s.rstrip()] and [s.strip()]. *)
Definition rstrip_spaces (s : str) : str := rstrip_with is_space s.
Definition rstrip (s : str) : str := rstrip_with isspace s.
Definition strip (s : str) : str := lstrip_with isspace (rstrip_with isspace s).

(** [s[a:b]] for [0 <= a <= b], [s[a:]] and [s[1:-1]]. *)
Definition slice {A} (s : list A) (a b : nat) : list A :=
  firstn (b - a) (skipn a s).
Definition slice_from {A} (s : list A) (a : nat) : list A := skipn a s.
Definition slice_1_m1 {A} (s : list A) : list A := removelast (tl s).

(** [s.replace("''", "'")]: the occurrences are replaced from left to
    right, without overlap. *)
Fixpoint replace_qq_q (s : str) : str :=
  match s with
  | "'"%char :: "'"%char :: t => "'"%char :: replace_qq_q t
  | c :: t => c :: replace_qq_q t
  | [] => []
  end.

(** [s.replace(a, b)] for single characters. *)
Definition replace_char (a b : ascii) (s : str) : str :=
  map (fun c => if Ascii.eqb c a then b else c) s.

(** [int(s)] for a text matching [[-+]?[0-9]+]. *)
Definition digit_val (c : ascii) : Z := Z.of_N (N_of_ascii c) - 48.

Definition int_of_digits (s : str) : Z :=
  fold_left (fun acc c => 10 * acc + digit_val c) s 0.

Definition int_of_str (s : str) : Z :=
  match s with
  | "-"%char :: t => - int_of_digits t
  | "+"%char :: t => int_of_digits t
  | _ => int_of_digits s
  end.

(** [str(n)] for a natural number [n]. *)
Fixpoint digits_of_uint (d : Decimal.uint) : str :=
  match d with
  | Decimal.Nil => []
  | Decimal.D0 d => "0"%char :: digits_of_uint d
  | Decimal.D1 d => "1"%char :: digits_of_uint d
  | Decimal.D2 d => "2"%char :: digits_of_uint d
  | Decimal.D3 d => "3"%char :: digits_of_uint d
  | Decimal.D4 d => "4"%char :: digits_of_uint d
  | Decimal.D5 d => "5"%char :: digits_of_uint d
  | Decimal.D6 d => "6"%char :: digits_of_uint d
  | Decimal.D7 d => "7"%char :: digits_of_uint d
  | Decimal.D8 d => "8"%char :: digits_of_uint d
  | Decimal.D9 d => "9"%char :: digits_of_uint d
  end.

Definition str_of_nat (n : nat) : str := digits_of_uint (Nat.to_uint n).

(** [range(start, stop, step)] for a positive [step]. *)
Definition range (start stop step : nat) : list nat :=
  map (fun k => start + k * step)%nat
      (seq 0 ((stop - start + (step - 1)) / step)%nat).

(** [min(b)] and [max(b)] of a non-empty [bytes] object. *)
Definition bytes_min (b : list byte) : N :=
  fold_right N.min 255%N (map Byte.to_N b).
Definition bytes_max (b : list byte) : N :=
  fold_right N.max 0%N (map Byte.to_N b).

(** [b.decode('ascii')], for bytes below 128. *)
Definition decode_ascii (b : list byte) : str := map ascii_of_byte b.

End Py.

(* ================================================================= *)
(** ** Regular expressions with Python's matching priorities *)

Module Re.

Inductive regex : Type :=
| Eps
| Chr (p : ascii -> bool)
| Cat (r1 r2 : regex)
| Alt (r1 r2 : regex)
| Star (r : regex)
| Group (name : str) (r : regex).

(** [r?], [r+] and a literal character. *)
Definition Opt (r : regex) : regex := Alt r Eps.
Definition Plus (r : regex) : regex := Cat r (Star r).
Definition Lit (c : ascii) : regex := Chr (Ascii.eqb c).

(** The groups set so far, most recent first. *)
Definition captures := list (str * str).

Fixpoint group (m : captures) (name : str) : option str :=
  match m with
  | [] => None
  | (n, s) :: m' => if Py.str_eqb n name then Some s else group m' name
  end.

Definition cont := str -> captures -> option captures.

(** [run r s m k] matches a prefix of [s] against [r] and hands the rest
    to [k]; when [k] fails the next alternative is tried, in the order of
    a backtracking engine: the left branch of [Alt] first, one more
    iteration of [Star] before leaving it.  An iteration of [Star] that
    consumes nothing is not repeated. *)
Fixpoint run (r : regex) (s : str) (m : captures) (k : cont) {struct r}
  : option captures :=
  match r with
  | Eps => k s m
  | Chr p =>
      match s with
      | c :: s' => if p c then k s' m else None
      | [] => None
      end
  | Cat r1 r2 => run r1 s m (fun s' m' => run r2 s' m' k)
  | Alt r1 r2 =>
      match run r1 s m k with
      | Some m' => Some m'
      | None => run r2 s m k
      end
  | Star r1 =>
      (fix loop (fuel : nat) (s : str) (m : captures) {struct fuel}
         : option captures :=
         match fuel with
         | O => k s m
         | S fuel' =>
             match run r1 s m
                     (fun s' m' =>
                        if (length s' <? length s)%nat
                        then loop fuel' s' m' else None) with
             | Some m' => Some m'
             | None => k s m
             end
         end) (length s) s m
  | Group name r1 =>
      run r1 s m
        (fun s' m' =>
           k s' ((name, firstn (length s - length s') s) :: m'))
  end.

Definition at_end : cont :=
  fun s m => match s with [] => Some m | _ :: _ => None end.

(** [re.fullmatch(r, s)]. *)
Definition fullmatch (r : regex) (s : str) : option captures :=
  run r s [] at_end.

End Re.

Declare Scope regex_scope.
Delimit Scope regex_scope with re.
Bind Scope regex_scope with Re.regex.
Infix ">>" := Re.Cat (at level 61, right associativity) : regex_scope.
Infix "</>" := Re.Alt (at level 62, right associativity) : regex_scope.

(* ================================================================= *)
(** ** Values, exceptions and outcomes *)

(** A keyword value.  A float is kept as the literal handed to Python's
    [float]; where the code observes its numeric value ([Fits], below) the
    literal is read as the binary64 number nearest to it. *)
Inductive value : Type :=
| VStr (s : str)
| VBool (b : bool)
| VInt (i : Z)
| VFloat (lit : str)
| VComplex (re im : str).

(** The [ValueError]s of the program, with the data their messages are
    formatted from. *)
Inductive value_error : Type :=
| InvalidKeywordValue                    (* 'invalid keyword value' *)
| FloatConversion (lit : str)            (* float() refusing a literal *)
| InRecord (nrecords : nat) (kw : option str) (exc : value_error)
                                         (* f'record {nrecords}{msg}: {exc}' *)
| InvalidBitpix (bitpix : value)         (* f'invalid BITPIX value: {bitpix}' *)
| InvalidTform (n : nat) (tform : str)   (* f'TFORM{n+1}: invalid format: {tform}' *)
| UnsupportedExtension (kind : str)      (* f'{kind} extension not supported' *)
| OffsetOverflow.                        (* seek() refusing an offset that does
                                            not fit the offset type *)

Inductive exn : Type :=
| HDUError                 (* class HDUError(TypeError) *)
| TypeError (msg : str)    (* a TypeError raised by the program itself *)
| ValueError (e : value_error)
| KeyError (key : str)     (* subscript of a dict with a missing key *)
| BuiltinError             (* a builtin or operator refusing the type of
                              its operand (TypeError, AttributeError,
                              OverflowError): which one is not modelled *)
| OSError                  (* seek to a position that the file system
                              refuses: negative, or beyond its limit *)
| MmapError                (* mmap.mmap refusing the mapping (ValueError,
                              OverflowError, OSError) *)
| NumpyError.              (* numpy refusing a dtype, a shape or a buffer
                              (TypeError, ValueError, SyntaxError, ...) *)

(** What a call does: return, raise, or exhaust the fuel given to a loop
    that the source does not bound. *)
Inductive outcome (A : Type) : Type :=
| Ok (a : A)
| Raise (e : exn)
| OutOfFuel.
Arguments Ok {A} a.
Arguments Raise {A} e.
Arguments OutOfFuel {A}.

Definition bind {A B} (x : outcome A) (f : A -> outcome B) : outcome B :=
  match x with
  | Ok a => f a
  | Raise e => Raise e
  | OutOfFuel => OutOfFuel
  end.

Declare Scope outcome_scope.
Delimit Scope outcome_scope with outcome.
Notation "x <- c ;; k" := (bind c (fun x => k))
  (at level 100, c at next level, right associativity) : outcome_scope.
Notation "' p <- c ;; k" := (bind c (fun x => match x with p => k end))
  (at level 100, p pattern, c at next level, right associativity)
  : outcome_scope.
Open Scope outcome_scope.

(** A header: a Python [dict], which keeps its keys in insertion order. *)
Definition dict := list (str * value).

Fixpoint dict_get (d : dict) (key : str) : option value :=
  match d with
  | [] => None
  | (k, v) :: d' => if Py.str_eqb k key then Some v else dict_get d' key
  end.

(** [key in d]. *)
Definition dict_mem (d : dict) (key : str) : bool :=
  match dict_get d key with Some _ => true | None => false end.

(** [d[key] = v]: the entry is replaced where it stands when the key is
    there, and added at the end otherwise. *)
Fixpoint dict_set (d : dict) (key : str) (v : value) : dict :=
  match d with
  | [] => [(key, v)]
  | (k, w) :: d' =>
      if Py.str_eqb k key then (k, v) :: d' else (k, w) :: dict_set d' key v
  end.

(** [d[key]] and [d.get(key, default)]. *)
Definition dict_item (d : dict) (key : str) : outcome value :=
  match dict_get d key with
  | Some v => Ok v
  | None => Raise (KeyError key)
  end.

Definition dict_get_default (d : dict) (key : str) (default : value) : value :=
  match dict_get d key with
  | Some v => v
  | None => default
  end.

(* ================================================================= *)
(** ** header.py *)

Module Header.

Import Re.

(** *** class KeywordValue *)

Definition printable : regex := Chr (Py.between " " "~").      (* [ -~] *)
Definition digit : regex := Chr (Py.between "0" "9").          (* [0-9] *)
Definition sign : regex := Chr (Py.one_of "-+").               (* [-+] *)
Definition spaces : regex := Star (Lit " ").                   (* \ * *)

Definition STR : regex :=
  Plus (Lit "'" >> Star printable >> Lit "'").

Definition BOOL : regex := Chr (Py.one_of "TF").

Definition INT : regex := Opt sign >> Plus digit.

Definition FLOAT : regex :=
  Opt sign
  >> (Plus digit >> Opt (Lit ".") </> Star digit >> Lit "." >> Plus digit)
  >> Opt (Chr (Py.one_of "ED") >> Opt sign >> Plus digit).

Definition COMPLEX : regex :=
  Lit "(" >> spaces >> Group "real" FLOAT >> spaces >> Lit ","
  >> spaces >> Group "imag" FLOAT >> spaces >> Lit ")".

Definition VALUE : regex :=
  Group "value"
    (Group "string" STR
     </> Group "bool" BOOL
     </> Group "int" INT
     </> Group "float" FLOAT
     </> Group "complex" COMPLEX).

Definition COMMENT : regex := Lit "/" >> Group "comment" (Star printable).

Definition PARSE : regex := spaces >> Opt VALUE >> spaces >> Opt COMMENT.

Definition keyword_value_regex : regex := PARSE.

(** [float(lit)]: every text of [FLOAT] is accepted except one with the
    exponent letter [D]. *)
Definition py_float (lit : str) : outcome str :=
  if existsb (Ascii.eqb "D") lit
  then Raise (ValueError (FloatConversion lit))
  else Ok lit.

Definition parse_keyword_value (expr : str)
  : outcome (option value * option str) :=
  match fullmatch keyword_value_regex expr with
  | None => Raise (ValueError InvalidKeywordValue)
  | Some m =>
      value <-
        match group m "value" with
        | None => Ok None
        | Some _ =>
            match group m "string" with
            | Some s => Ok (Some (VStr (Py.replace_qq_q (Py.slice_1_m1 s))))
            | None =>
            match group m "bool" with
            | Some b => Ok (Some (VBool (Py.str_eqb b "T")))
            | None =>
            match group m "int" with
            | Some i => Ok (Some (VInt (Py.int_of_str i)))
            | None =>
            match group m "float" with
            | Some f =>
                f' <- py_float (Py.replace_char "D" "E" f) ;;
                Ok (Some (VFloat f'))
            | None =>
            match group m "complex" with
            | Some _ =>
                match group m "real", group m "imag" with
                | Some real, Some imag =>
                    re <- py_float real ;;
                    im <- py_float imag ;;
                    Ok (Some (VComplex re im))
                | _, _ => Raise BuiltinError
                end
            | None => Ok None   (* should never happen *)
            end end end end end
        end ;;
      let comment :=
        match group m "comment" with
        | Some co => Some (Py.strip co)
        | None => None
        end in
      Ok (value, comment)
  end.

(** *** parse_keyword *)

Definition parse_keyword (record : str)
  : outcome (option str * option value * option str) :=
  let keyword := Py.rstrip_spaces (Py.slice record 0 8) in
  if Py.str_eqb keyword "END" then
    Ok (None, None, None)
  else if Py.str_eqb keyword "CONTINUE"
          || negb (existsb (Py.str_eqb keyword) ["COMMENT" : str; "HISTORY" : str; "" : str])
             && Py.str_eqb (Py.slice record 8 10) "= " then
    ' (value, comment) <- parse_keyword_value (Py.slice_from record 10) ;;
    Ok (Some keyword, value, comment)
  else
    Ok (Some keyword, Some (VStr (Py.rstrip_spaces (Py.slice_from record 8))), None).

(** *** The source: a binary file object *)

Record file : Type := { content : list byte; pos : nat }.

(** [fp.readinto(buffer)] for a buffer of 2880 bytes: the bytes read (all
    that is left when fewer than 2880 are) and the file moved past them. *)
Definition readinto (fp : file) : list byte * file :=
  let got := firstn 2880 (skipn (pos fp) (content fp)) in
  (got, {| content := content fp; pos := (pos fp + length got)%nat |}).

(** *** read_block

    The [buffer] argument is storage only: it is overwritten by every
    read and its previous bytes are never looked at, so it is left out. *)
Definition read_block (fp : file) : option (list byte) * file :=
  let '(buffer, fp') := readinto fp in
  ((if (length buffer =? 2880)%nat then Some buffer else None), fp').

(** *** read_header *)

(** [\w] and [\s] on ASCII text. *)
Definition word_char (c : ascii) : bool :=
  Py.between "a" "z" c || Py.between "A" "Z" c || Py.between "0" "9" c
  || Ascii.eqb c "_".

Definition record_keyword_regex : regex :=            (* (\w+)\s* *)
  Group "1" (Plus (Chr word_char)) >> Star (Chr Py.isspace).

(** The probe for an unused name (lines 159-163):
    [while name in keywords: ndup += 1; name = f'{keyword}.{ndup}'].
    [fuel] bounds the number of iterations. *)
Fixpoint probe (fuel : nat) (keywords : dict) (keyword : str)
         (ndup : nat) (name : str) : outcome str :=
  if dict_mem keywords name then
    match fuel with
    | O => OutOfFuel
    | S fuel' =>
        let ndup := S ndup in
        probe fuel' keywords keyword ndup (keyword ++ "." ++ Py.str_of_nat ndup)
    end
  else Ok name.

(** Lines 159-164: every iteration of the probe finds one more key of
    [keywords], so [length keywords] iterations are enough. *)
Definition store (keywords : dict) (keyword : str) (v : value)
  : outcome dict :=
  name <- probe (length keywords) keywords keyword 0 keyword ;;
  Ok (dict_set keywords name v).

(** The test on the first record (lines 145-151). *)
Definition first_record_ok (primary : bool) (keyword : option str)
           (v : option value) : bool :=
  if primary then
    match keyword, v with
    | Some k, Some (VBool true) => Py.str_eqb k "SIMPLE"
    | _, _ => false
    end
  else
    match keyword, v with
    | Some k, Some (VStr _) => Py.str_eqb k "XTENSION"
    | _, _ => false
    end.

(** The body of the [for] loop (lines 131-164) on one record; the boolean
    of the result tells that the terminator was met ([break]). *)
Definition read_record (primary : bool) (keywords : dict) (nrecords : nat)
           (record : str) : outcome (dict * nat * bool) :=
  let nrecords := S nrecords in
  ' (keyword, v, comment) <-
      match parse_keyword record with
      | Raise (ValueError exc) =>
          if (nrecords =? 1)%nat then Raise HDUError
          else
            let msg :=
              match fullmatch record_keyword_regex (Py.slice record 0 8) with
              | Some m => group m "1"
              | None => None
              end in
            Raise (ValueError (InRecord nrecords msg exc))
      | r => r
      end ;;
  if (nrecords =? 1)%nat && negb (first_record_ok primary keyword v) then
    Raise HDUError
  else
    match keyword with
    | None => Ok (keywords, nrecords, true)
    | Some keyword =>
        match v with
        | Some v =>
            keywords' <- store keywords keyword v ;;
            Ok (keywords', nrecords, false)
        | None => Ok (keywords, nrecords, false)
        end
    end.

(** [for i in range(0, 2880, 80)] over the offsets still to visit. *)
Fixpoint read_records (primary : bool) (block : list byte)
         (keywords : dict) (nrecords : nat) (offsets : list nat)
  : outcome (dict * nat * bool) :=
  match offsets with
  | [] => Ok (keywords, nrecords, false)
  | i :: offsets' =>
      let record := Py.decode_ascii (Py.slice block i (i + 80)) in
      ' (keywords', nrecords', ended) <-
          read_record primary keywords nrecords record ;;
      if ended : bool then Ok (keywords', nrecords', true)
      else read_records primary block keywords' nrecords' offsets'
  end.

Definition block_offsets : list nat := Py.range 0 2880 80.

(** [while not ended], one iteration per unit of [fuel]. *)
Fixpoint read_header_loop (fuel : nat) (primary : bool) (fp : file)
         (keywords : dict) (nrecords : nat) : outcome dict * file :=
  match fuel with
  | O => (OutOfFuel, fp)
  | S fuel' =>
      let '(block, fp) := read_block fp in
      match block with
      | None =>
          if (nrecords =? 0)%nat then (Raise HDUError, fp)
          else (Raise (TypeError "incomplete block in header"), fp)
      | Some block =>
          if (Py.bytes_min block <? 32)%N || (126 <? Py.bytes_max block)%N
          then (Raise (TypeError "invalid characters in header"), fp)
          else
            match read_records primary block keywords nrecords
                    block_offsets with
            | Ok (keywords', nrecords', ended) =>
                if ended : bool then (Ok keywords', fp)
                else read_header_loop fuel' primary fp keywords' nrecords'
            | Raise e => (Raise e, fp)
            | OutOfFuel => (OutOfFuel, fp)
            end
      end
  end.

(** Every iteration but the last consumes 2880 bytes of the file, so the
    number of bytes of the file bounds the number of iterations. *)
Definition read_header (fp : file) (primary : bool) : outcome dict * file :=
  read_header_loop (S (length (content fp))) primary fp [] 0%nat.

End Header.

(* ================================================================= *)
(** ** fits.py *)

Module Fits.

Import Re.
Import Header.

(** *** Integers and floats among the header values *)

(** A value usable as a Python [int]: an [int], or a [bool] (False is 0
    and True is 1). *)
Definition as_int (v : value) : option Z :=
  match v with
  | VInt i => Some i
  | VBool b => Some (if b then 1 else 0)
  | _ => None
  end.

(** An operand of integer arithmetic.  With a float, a complex or a
    string among its operands, the arithmetic of [skip_data] and [hdu]
    goes on in that type and the result is refused further on, by [%], by
    [+], by [seek] or by [mmap]: the call raises. *)
Definition int_operand (v : value) : outcome Z :=
  match as_int v with
  | Some i => Ok i
  | None => Raise BuiltinError
  end.

(** [s.split(c, 1)]. *)
Fixpoint split_on (c : ascii) (s : str) : str * option str :=
  match s with
  | [] => ([], None)
  | x :: t =>
      if Ascii.eqb x c then ([], Some t)
      else let '(a, b) := split_on c t in (x :: a, b)
  end.

(** The number a float literal denotes, before rounding. *)
Definition float_exact (lit : str) : Q :=
  let '(negative, body) :=
    match lit with
    | "-"%char :: t => (true, t)
    | "+"%char :: t => (false, t)
    | _ => (false, lit)
    end in
  let '(mantissa, exponent) := split_on "E" body in
  let '(int_part, frac_part) := split_on "." mantissa in
  let frac := match frac_part with Some f => f | None => [] end in
  let m := Py.int_of_digits (int_part ++ frac) in
  let e := match exponent with Some x => Py.int_of_str x | None => 0 end in
  inject_Z (if negative then - m else m)
  * Qpower (10 # 1) (e - Z.of_nat (length frac)).

(** [float(lit) > 0]: the nearest binary64 number is positive, which
    leaves out what rounds to zero, half the least subnormal and below. *)
Definition float_gt0 (lit : str) : bool :=
  negb (Qle_bool (float_exact lit) (Qpower (2 # 1) (-1075))).

(** [float(lit) == 0]. *)
Definition float_is_zero (lit : str) : bool :=
  Qle_bool (- Qpower (2 # 1) (-1075)) (float_exact lit)
  && Qle_bool (float_exact lit) (Qpower (2 # 1) (-1075)).

(** [float(lit) == k] for [k] a power of two or its opposite: the literal
    lies within half a unit in the last place of [k] (both ends included,
    [k] having an even significand). *)
Definition float_eq_int (lit : str) (k : Z) : bool :=
  let j := Z.log2 (Z.abs k) in
  let x := if k <? 0 then (- float_exact lit)%Q else float_exact lit in
  Qle_bool (Qpower (2 # 1) j - Qpower (2 # 1) (j - 54)) x
  && Qle_bool x (Qpower (2 # 1) j + Qpower (2 # 1) (j - 53)).

(** *** HduArray *)

(** A numpy dtype as the code writes it: a string, or a list of named
    fields. *)
Inductive dtype : Type :=
| DScalar (fmt : str)
| DFields (fields : list (str * str)).

(** The two arrays [hdu] builds.  The mapping and the array over it are
    made by [mmap] and numpy, outside this code: the embedding records
    the arguments they are called with; whether the calls return is
    asked of the [platform], below. *)
Inductive ndarray : Type :=
| Empty (dt : dtype)        (* np.empty(0, dtype) *)
| Mapped (buffer_offset buffer_length : Z)   (* mmap.mmap(..., length, offset=) *)
         (shape : list Z) (dt : dtype) (array_offset : Z).
                            (* np.ndarray(shape, dtype, buffer, offset, order='F') *)

Record HduArray : Type := { data : ndarray; header : dict }.

(** *** shape_from_header *)

(** [tuple(header[f'NAXIS{i+1}'] for i in range(i, i + n))]. *)
Fixpoint axes (header : dict) (i n : nat) : outcome (list value) :=
  match n with
  | O => Ok []
  | S n' =>
      v <- dict_item header ("NAXIS" ++ Py.str_of_nat (i + 1)) ;;
      rest <- axes header (S i) n' ;;
      Ok (v :: rest)
  end.

Definition shape_from_header (header : dict) : outcome (option (list value)) :=
  naxis <- dict_item header "NAXIS" ;;
  match naxis with
  | VInt _ | VBool _ =>
      let n := match as_int naxis with Some n => n | None => 0 end in
      if n >? 0 then
        shape <- axes header 0 (Z.to_nat n) ;; Ok (Some shape)
      else Ok None
  | VFloat lit =>
      if float_gt0 lit then Raise BuiltinError   (* range(float) *)
      else Ok None
  | VStr _ | VComplex _ _ => Raise BuiltinError   (* naxis > 0 *)
  end.

(** *** tform_regex and the dtype tables *)

Definition tform_regex : regex :=
  Opt (Group "count" (Plus (Chr (Py.between "0" "9"))))
  >> Group "value" (Chr (Py.one_of "LXBIJKAEDCM"))
  >> Star (Chr (fun c => negb (Ascii.eqb c "010"))).

Definition BITPIX_DTYPE_MAP : list (Z * str) :=
  [(8, "u1" : str); (16, "i2" : str); (32, "i4" : str); (64, "i8" : str);
   (-32, "f4" : str); (-64, "f8" : str)].

Definition TFORM_DTYPE_MAP : list (str * str) :=
  [("L" : str, "?" : str); ("X" : str, "u1" : str); ("B" : str, "u1" : str);
   ("I" : str, "i2" : str); ("J" : str, "i4" : str); ("K" : str, "i8" : str);
   ("A" : str, "U" : str); ("E" : str, "f4" : str); ("D" : str, "f8" : str);
   ("C" : str, "c8" : str); ("M" : str, "c16" : str)].

(** [v == k] for a key [k] of [BITPIX_DTYPE_MAP], which is how a dict
    finds [v] (numbers that are equal hash alike). *)
Definition key_equal (v : value) (k : Z) : bool :=
  match v with
  | VInt i => i =? k
  | VBool b => (if b then 1 else 0) =? k
  | VFloat lit => float_eq_int lit k
  | VComplex re im => float_eq_int re k && float_is_zero im
  | VStr _ => false
  end.

Fixpoint lookup_bitpix (table : list (Z * str)) (v : value) : option str :=
  match table with
  | [] => None
  | (k, d) :: table' =>
      if key_equal v k then Some d else lookup_bitpix table' v
  end.

Fixpoint lookup_tform (table : list (str * str)) (code : str) : option str :=
  match table with
  | [] => None
  | (k, d) :: table' =>
      if Py.str_eqb k code then Some d else lookup_tform table' code
  end.

(** *** image_dtype *)

Definition image_dtype (header : dict) : outcome dtype :=
  bitpix <- dict_item header "BITPIX" ;;
  match lookup_bitpix BITPIX_DTYPE_MAP bitpix with
  | Some dt => Ok (DScalar (">" ++ dt))
  | None => Raise (ValueError (InvalidBitpix bitpix))
  end.

(** *** bintable_dtype *)

(** Lines 84-101: the format of one field from its TFORM. *)
Definition field_format (n : nat) (tform : str) : outcome str :=
  match fullmatch tform_regex tform with
  | None => Raise (ValueError (InvalidTform (n + 1) tform))
  | Some m =>
      match group m "value" with
      | None => Raise BuiltinError
      | Some code =>
          match lookup_tform TFORM_DTYPE_MAP code with
          | None => Raise (KeyError code)
          | Some fmt =>
              let fmt :=
                match group m "count" with
                | Some count =>
                    if Py.str_eqb code "X" then
                      let c := Py.int_of_str count in
                      let c := if negb (c mod 8 =? 0) then c + 1 else c in
                      Py.str_of_nat (Z.to_nat c) ++ fmt
                    else if Py.str_eqb code "A" then
                      fmt ++ count
                    else
                      count ++ fmt
                | None => fmt
                end in
              Ok (">" ++ fmt)
          end
      end
  end.

(** [for n in range(n, n + todo)]: the fields still to describe. *)
Fixpoint bintable_fields (header : dict) (n todo : nat)
  : outcome (list (str * str)) :=
  match todo with
  | O => Ok []
  | S todo' =>
      let ttype :=
        dict_get_default header ("TTYPE" ++ Py.str_of_nat (n + 1))
          (VStr ("f" ++ Py.str_of_nat n)) in
      tform <- dict_item header ("TFORM" ++ Py.str_of_nat (n + 1)) ;;
      name <- match ttype with
              | VStr s => Ok (Py.rstrip s)
              | _ => Raise BuiltinError            (* no rstrip *)
              end ;;
      fmt <- match tform with
             | VStr s => field_format n s
             | _ => Raise BuiltinError             (* fullmatch of a non-string *)
             end ;;
      rest <- bintable_fields header (S n) todo' ;;
      Ok ((name, fmt) :: rest)
  end.

Definition bintable_dtype (header : dict) : outcome dtype :=
  tfields <- dict_item header "TFIELDS" ;;
  match as_int tfields with
  | None => Raise BuiltinError                     (* range(tfields) *)
  | Some t =>
      fields <- bintable_fields header 0 (Z.to_nat t) ;;
      Ok (DFields fields)
  end.

(** *** dtype_from_header *)

Definition dtype_from_header (header : dict) : outcome dtype :=
  match dict_get_default header "XTENSION" (VStr "IMAGE") with
  | VStr s =>
      let kind := Py.rstrip s in
      if Py.str_eqb kind "IMAGE" then image_dtype header
      else if Py.str_eqb kind "BINTABLE" then bintable_dtype header
      else Raise (ValueError (UnsupportedExtension kind))
  | _ => Raise BuiltinError                        (* no rstrip *)
  end.

(** *** skip_data *)

(** [math.prod(shape)] over integers. *)
Fixpoint prod (shape : list value) : outcome Z :=
  match shape with
  | [] => Ok 1
  | v :: rest =>
      x <- int_operand v ;;
      y <- prod rest ;;
      Ok (x * y)
  end.

(** *** The platform

    [skip_data] and [hdu] call the file object, [mmap] and numpy.  These
    are not part of this code, and what they answer depends on the file
    system and on the version of the library: the embedding takes it as
    a parameter.  Sizes and offsets have 64 bits. *)
Record platform : Type := {
  (* the largest position the file system lets a file be moved to *)
  max_offset : Z;
  (* [mmap.mmap(fp.fileno(), length, offset=offset, access=ACCESS_READ)]
     on the file, as [mmap_new fp length offset]: [len(buffer)] when the
     mapping is made, nothing when the call raises *)
  mmap_new : file -> Z -> Z -> option Z;
  (* [np.ndarray.__new__(np.ndarray, shape, dtype, buffer=buffer,
     offset=offset, order='F')], as [ndarray_new shape dtype len(buffer)
     offset]: whether the call returns *)
  ndarray_new : list value -> dtype -> Z -> Z -> bool;
  (* [np.empty(0, dtype)]: whether the call returns *)
  np_empty : dtype -> bool
}.

(** [fp.tell()] and [fp.seek(offset, 1)] on a buffered file object: the
    offset is converted to the offset type, then the file is moved. *)
Definition tell (fp : file) : Z := Z.of_nat (pos fp).

Definition seek_cur (P : platform) (fp : file) (offset : Z) : outcome file :=
  if (offset <? - 2 ^ 63) || (2 ^ 63 <=? offset) then
    Raise (ValueError OffsetOverflow)
  else if (tell fp + offset <? 0) || (max_offset P <? tell fp + offset) then
    Raise OSError
  else Ok {| content := content fp; pos := Z.to_nat (tell fp + offset) |}.

Definition skip_data (P : platform) (fp : file) (header : dict)
  : outcome file :=
  shape <- shape_from_header header ;;
  match shape with
  | Some shape =>
      bitpix <- dict_item header "BITPIX" ;;
      let pcount := dict_get_default header "PCOUNT" (VInt 0) in
      b <- int_operand bitpix ;;
      p <- int_operand pcount ;;
      n <- prod shape ;;
      let ndata := Z.abs b / 8 * (p + n) in
      let nskip := ndata + (2880 - ndata mod 2880) mod 2880 in
      seek_cur P fp nskip
  | None => Ok fp
  end.

(** *** hdu

    [granularity] is [mmap.ALLOCATIONGRANULARITY], a positive constant of
    the platform.  An exception of [mmap.mmap] or of numpy leaves [hdu]
    as it is (the [finally] clause closes the mapping and does not catch
    it). *)
Definition hdu (P : platform) (granularity : Z) (fp : file) (header : dict)
  : outcome HduArray :=
  shape <- shape_from_header header ;;
  dt <- dtype_from_header header ;;
  match shape with
  | Some shape =>
      bitpix <- dict_item header "BITPIX" ;;
      let pcount := dict_get_default header "PCOUNT" (VInt 0) in
      let gcount := dict_get_default header "GCOUNT" (VInt 1) in
      b <- int_operand bitpix ;;
      g <- int_operand gcount ;;
      p <- int_operand pcount ;;
      n <- prod shape ;;
      let nbytes := Z.abs b / 8 * g * (p + n) in
      let shape :=
        match dt with
        | DFields _ => tl shape
        | DScalar _ => shape
        end in
      let dims := map (fun v => match as_int v with Some i => i | None => 0 end)
                      shape in
      let file_offset := tell fp in
      let array_offset := file_offset mod granularity in
      let buffer_offset := file_offset - array_offset in
      let buffer_length := array_offset + nbytes in
      match mmap_new P fp buffer_length buffer_offset with
      | Some len =>
          if ndarray_new P shape dt len array_offset then
            Ok {| data := Mapped buffer_offset buffer_length dims dt
                                 array_offset;
                  header := header |}
          else Raise NumpyError
      | None => Raise MmapError
      end
  | None =>
      if np_empty P dt then Ok {| data := Empty dt; header := header |}
      else Raise NumpyError
  end.

(** *** load *)

(** The [while True] loop (lines 189-198), one iteration per unit of
    [fuel]: the source does not bound it. *)
Fixpoint load_loop (P : platform) (fuel : nat) (granularity : Z) (fp : file)
         (header : dict) (hdus : list HduArray)
  : outcome (list HduArray) * file :=
  match fuel with
  | O => (OutOfFuel, fp)
  | S fuel' =>
      match skip_data P fp header with
      | Ok fp =>
          let '(r, fp) := read_header fp false in
          match r with
          | Raise HDUError => (Ok hdus, fp)                     (* break *)
          | Raise e => (Raise e, fp)
          | OutOfFuel => (OutOfFuel, fp)
          | Ok header =>
              match hdu P granularity fp header with
              | Ok u => load_loop P fuel' granularity fp header (hdus ++ [u])
              | Raise e => (Raise e, fp)
              | OutOfFuel => (OutOfFuel, fp)
              end
          end
      | Raise e => (Raise e, fp)
      | OutOfFuel => (OutOfFuel, fp)
      end
  end.

Definition load (P : platform) (fuel : nat) (granularity : Z) (fp : file)
  : outcome (list HduArray) * file :=
  let '(r, fp) := read_header fp true in
  match r with
  | Raise HDUError => (Raise (TypeError "not a FITS file"), fp)
  | Raise e => (Raise e, fp)
  | OutOfFuel => (OutOfFuel, fp)
  | Ok header =>
      match hdu P granularity fp header with
      | Ok u =>
          let hdus := [u] in
          match dict_item header "EXTEND" with
          | Ok (VBool true) => load_loop P fuel granularity fp header hdus
          | Ok _ => (Ok hdus, fp)
          | Raise e => (Raise e, fp)
          | OutOfFuel => (OutOfFuel, fp)
          end
      | Raise e => (Raise e, fp)
      | OutOfFuel => (OutOfFuel, fp)
      end
  end.

End Fits.

(* ================================================================= *)
(** ** Notions used in the statements *)

Module Notions.

Import Re.
Import Header.
Import Fits.

(** The characters of a record: [ -~]. *)
Definition printable_char (c : ascii) : bool := Py.between " " "~" c.

(** *** The relation computed by [Re.run]

    [matches r s s' m m']: [r] matches a prefix of [s] and leaves [s'],
    the groups going from [m] to [m']. *)
Inductive matches : regex -> str -> str -> captures -> captures -> Prop :=
| M_Eps s m : matches Eps s s m m
| M_Chr p c s m : p c = true -> matches (Chr p) (c :: s) s m m
| M_Cat r1 r2 s s1 s2 m m1 m2 :
    matches r1 s s1 m m1 -> matches r2 s1 s2 m1 m2 ->
    matches (Cat r1 r2) s s2 m m2
| M_Alt_l r1 r2 s s' m m' :
    matches r1 s s' m m' -> matches (Alt r1 r2) s s' m m'
| M_Alt_r r1 r2 s s' m m' :
    matches r2 s s' m m' -> matches (Alt r1 r2) s s' m m'
| M_Star_stop r s m : matches (Star r) s s m m
| M_Star_more r s s1 s2 m m1 m2 :
    matches r s s1 m m1 -> matches (Star r) s1 s2 m1 m2 ->
    matches (Star r) s s2 m m2
| M_Group name r s s' m m' :
    matches r s s' m m' ->
    matches (Group name r) s s'
            m ((name, firstn (length s - length s') s) :: m').

(** Every character class of [r] is within [P]. *)
Fixpoint classes_within (P : ascii -> bool) (r : regex) : Prop :=
  match r with
  | Eps => True
  | Chr p => forall c, p c = true -> P c = true
  | Cat r1 r2 | Alt r1 r2 => classes_within P r1 /\ classes_within P r2
  | Star r1 | Group _ r1 => classes_within P r1
  end.

(** The names of the groups of [r]. *)
Fixpoint group_names (r : regex) : list str :=
  match r with
  | Eps | Chr _ => []
  | Cat r1 r2 | Alt r1 r2 => group_names r1 ++ group_names r2
  | Star r1 => group_names r1
  | Group name r1 => name :: group_names r1
  end.

Definition captures_within (P : ascii -> bool) (m : captures) : Prop :=
  Forall (fun g => Forall (fun c => P c = true) (snd g)) m.

(** *** Re-encoding a string value as a literal *)

(** Each quote doubled. *)
Fixpoint escape (s : str) : str :=
  match s with
  | [] => []
  | c :: t =>
      if Ascii.eqb c "'" then "'"%char :: "'"%char :: escape t
      else c :: escape t
  end.

(** The literal of the string [s]: its quotes doubled, between quotes. *)
Definition literal (s : str) : str := "'"%char :: escape s ++ ["'"%char].

(** *** The records of a header *)

Definition record_at (block : list byte) (i : nat) : str :=
  Py.decode_ascii (Py.slice block i (i + 80)).

(** The records of a block, in the order of the [for] loop. *)
Definition block_records (block : list byte) : list str :=
  map (record_at block) block_offsets.

(** The records of the complete blocks that follow the position of [fp]. *)
Fixpoint records_loop (fuel : nat) (fp : file) : list str :=
  match fuel with
  | O => []
  | S fuel' =>
      match read_block fp with
      | (Some block, fp') => block_records block ++ records_loop fuel' fp'
      | (None, _) => []
      end
  end.

Definition header_records (fp : file) : list str :=
  records_loop (S (length (content fp))) fp.

(** The terminator: a record whose keyword is END. *)
Definition is_end (record : str) : bool :=
  Py.str_eqb (Py.rstrip_spaces (Py.slice record 0 8)) "END".

(** The records before the first terminator. *)
Fixpoint until_end (records : list str) : list str :=
  match records with
  | [] => []
  | r :: rest => if is_end r then [] else r :: until_end rest
  end.

(** What a record brings to the header: its keyword and its value, when
    it has one. *)
Definition entry (record : str) : list (str * value) :=
  match parse_keyword record with
  | Ok (Some keyword, Some v, _) => [(keyword, v)]
  | _ => []
  end.

Definition entries (records : list str) : list (str * value) :=
  flat_map entry records.

(** The value-bearing records read by one call of [read_header]. *)
Definition header_entries (fp : file) : list (str * value) :=
  entries (until_end (header_records fp)).

(** The insertions of lines 158-164 for a list of entries, in order. *)
Fixpoint store_all (keywords : dict) (es : list (str * value))
  : outcome dict :=
  match es with
  | [] => Ok keywords
  | (keyword, v) :: es' =>
      keywords' <- store keywords keyword v ;;
      store_all keywords' es'
  end.

(** The [k]-th name tried for [keyword]: the keyword itself, then
    [keyword.1], [keyword.2], ... *)
Definition synth (keyword : str) (k : nat) : str :=
  match k with
  | O => keyword
  | S _ => keyword ++ "." ++ Py.str_of_nat k
  end.

(** [tail] holds the entries [es] in order, added to [keywords] one by
    one, each under the first name of its keyword that was unused when
    its turn came. *)
Fixpoint inserted (keywords : dict) (es : list (str * value)) (tail : dict)
  : Prop :=
  match es, tail with
  | [], [] => True
  | (keyword, v) :: es', (name, w) :: tail' =>
      w = v
      /\ (exists c, name = synth keyword c
                    /\ dict_mem keywords name = false
                    /\ forall j, (j < c)%nat ->
                                 dict_mem keywords (synth keyword j) = true)
      /\ inserted (keywords ++ [(name, w)]) es' tail'
  | _, _ => False
  end.

Fixpoint occurrences (keyword : str) (seen : list str) : nat :=
  match seen with
  | [] => O
  | k :: seen' =>
      if Py.str_eqb k keyword then S (occurrences keyword seen')
      else occurrences keyword seen'
  end.

(** Each entry under the name given by the number of earlier entries
    with its keyword ([seen] holds the keywords met so far). *)
Fixpoint label (seen : list str) (es : list (str * value)) : dict :=
  match es with
  | [] => []
  | (keyword, v) :: es' =>
      (synth keyword (occurrences keyword seen), v)
        :: label (seen ++ [keyword]) es'
  end.

Definition no_dot (s : str) : Prop := ~ In "."%char s.

(** The keys of [keywords] are the names given to the keywords [seen]. *)
Definition named (seen : list str) (keywords : dict) : Prop :=
  forall name,
    In name (map fst keywords)
    <-> exists K j, (j < occurrences K seen)%nat /\ name = synth K j.

(** *** The fault that makes [read_header] raise HDUError *)

Definition block_printable (block : list byte) : bool :=
  negb ((Py.bytes_min block <? 32)%N || (126 <? Py.bytes_max block)%N).

(** The record fails the grammar, or the test on the first record. *)
Definition record_fault (primary : bool) (record : str) : bool :=
  match parse_keyword record with
  | Ok (keyword, v, _) => negb (first_record_ok primary keyword v)
  | Raise (ValueError _) => true
  | _ => false
  end.

(** The first block is short, or it is complete and printable and its
    first record is at fault. *)
Definition first_fault (fp : file) (primary : bool) : bool :=
  match read_block fp with
  | (None, _) => true
  | (Some block, _) =>
      block_printable block && record_fault primary (record_at block 0)
  end.

(** The errors of a header that is malformed past its first record. *)
Definition malformed (e : exn) : Prop :=
  e = TypeError "incomplete block in header"
  \/ e = TypeError "invalid characters in header"
  \/ exists n kw exc, (1 < n)%nat /\ e = ValueError (InRecord n kw exc).

(** *** The platform of the samples *)

(** [mmap.mmap] on a regular file, as CPython checks its arguments
    against the size of the file; a length of zero asks for the rest of
    the file. *)
Definition mmap_regular (fp : file) (length offset : Z) : option Z :=
  let size := Z.of_nat (List.length (content fp)) in
  if (length <? 0) || (offset <? 0)
     || (2 ^ 63 <=? length) || (2 ^ 63 <=? offset) then None
  else if length =? 0 then
    if (size =? 0) || (size <=? offset) || (2 ^ 63 <=? size - offset)
    then None else Some (size - offset)
  else if (size <? offset) || (size - offset <? length) then None
  else Some length.

(** The size in bytes of an element of an image. *)
Definition image_itemsize (fmt : str) : option Z :=
  if Py.str_eqb fmt ">u1" then Some 1
  else if Py.str_eqb fmt ">i2" then Some 2
  else if Py.str_eqb fmt ">i4" || Py.str_eqb fmt ">f4" then Some 4
  else if Py.str_eqb fmt ">i8" || Py.str_eqb fmt ">f8" then Some 8
  else None.

Fixpoint int_dims (shape : list value) : option (list Z) :=
  match shape with
  | [] => Some []
  | VInt i :: rest =>
      match int_dims rest with
      | Some dims => if i <? 0 then None else Some (i :: dims)
      | None => None
      end
  | _ :: _ => None
  end.

(** numpy on the element types of images: an array of at most 32 axes,
    of sizes that are integers not below zero, is laid over a buffer
    that holds it from the offset on. *)
Definition ndarray_image (shape : list value) (dt : dtype) (len offset : Z)
  : bool :=
  match dt, int_dims shape with
  | DScalar fmt, Some dims =>
      match image_itemsize fmt with
      | Some size =>
          (List.length dims <=? 32)%nat
          && (0 <=? offset) && (offset <=? len)
          && (size * fold_right Z.mul 1 dims <=? len - offset)
          && (size * fold_right Z.mul 1 (map (Z.max 1) dims) <? 2 ^ 63)
      | None => false
      end
  | _, _ => false
  end.

Definition empty_image (dt : dtype) : bool :=
  match dt with
  | DScalar fmt =>
      match image_itemsize fmt with Some _ => true | None => false end
  | DFields _ => false
  end.

(** The platform on which the samples are read: regular files on a file
    system whose files end at 16 TiB less a page (ext4 with blocks of
    4096 bytes), and numpy on images.  The samples are images; what
    numpy does with the dtype of a table, with a size that is a boolean
    or negative, or with more than 32 axes is not part of this instance,
    which refuses them. *)
Definition sample_platform : platform :=
  {| max_offset := 2 ^ 44 - 4096;
     mmap_new := mmap_regular;
     ndarray_new := ndarray_image;
     np_empty := empty_image |}.

(** *** Sample files *)

(** A record from its text, and a file from its records, each padded
    with spaces to 80 and 2880 bytes. *)
Definition card (text : string) : list byte :=
  firstn 80 (list_byte_of_string text ++ repeat x20 80).

Definition pad_block (b : list byte) : list byte :=
  b ++ repeat x20 ((2880 - length b mod 2880) mod 2880).

Definition file_of (cards : list string) (data : list byte) : file :=
  {| content := pad_block (concat (map card cards)) ++ data; pos := 0%nat |}.

(** A primary header without data, with repeated keywords. *)
Definition sample_repeated : file :=
  file_of ["SIMPLE  =                    T / a comment";
           "BITPIX  =                    8";
           "NAXIS   =                    0";
           "COMMENT hello";
           "COMMENT world";
           "FOO     = 1";
           "FOO     = 2";
           "FOO     = 3";
           "EXTEND  =                    F";
           "END"] [].

(** A keyword that is spelled like a name of the probe. *)
Definition sample_collision : file :=
  file_of ["SIMPLE  =                    T";
           "COMMENT hello";
           "COMMENT world";
           "A.1     = 5";
           "A       = 1";
           "A       = 2";
           "END"] [].

(** Twenty records in one block. *)
Definition sample_twenty : file :=
  file_of ["SIMPLE  =                    T";
           "BITPIX  =                    8";
           "NAXIS   =                    0";
           "K04     = 4"; "K05     = 5"; "K06     = 6"; "K07     = 7";
           "K08     = 8"; "K09     = 9"; "K10     = 10"; "K11     = 11";
           "K12     = 12"; "K13     = 13"; "K14     = 14"; "K15     = 15";
           "K16     = 16"; "K17     = 17"; "K18     = 18"; "K19     = 19";
           "END"] [].

(** A primary header without EXTEND. *)
Definition sample_no_extend : file :=
  file_of ["SIMPLE  =                    T";
           "BITPIX  =                    8";
           "NAXIS   =                    0";
           "END"] [].

(** Two groups of 2880 bytes, then an image extension. *)
Definition sample_groups : file :=
  file_of ["SIMPLE  =                    T";
           "BITPIX  =                    8";
           "NAXIS   =                    1";
           "NAXIS1  =                 2880";
           "GCOUNT  =                    2";
           "EXTEND  =                    T";
           "END"]
          (repeat x00 (2 * 2880)
           ++ content (file_of ["XTENSION= 'IMAGE   '";
                                "BITPIX  =                    8";
                                "NAXIS   =                    0";
                                "END"] [])).

(** A complete first block that is not a header and holds a byte 0. *)
Definition sample_unprintable : file :=
  {| content := card "HELLO" ++ [x00] ++ repeat x20 2799; pos := 0%nat |}.

Definition sample_empty : file := {| content := []; pos := 0%nat |}.

(** The header of [sample_groups]. *)
Definition header_groups : dict :=
  [("SIMPLE" : str, VBool true); ("BITPIX" : str, VInt 8);
   ("NAXIS" : str, VInt 1); ("NAXIS1" : str, VInt 2880);
   ("GCOUNT" : str, VInt 2); ("EXTEND" : str, VBool true)].

Definition sample_record : str :=
  Py.decode_ascii (card "HIERARCH ESO DET CHIP1 ID = 'CCD-42'").

End Notions.

(* ================================================================= *)
(** ** Further notions used in the statements *)

Module Further.

Import Re.
Import Header.
Import Fits.
Import Notions.

(** [str(z)] for an integer [z]. *)
Definition str_of_int (z : Z) : str :=
  if z <? 0 then "-"%char :: Py.str_of_nat (Z.to_nat (- z))
  else Py.str_of_nat (Z.to_nat z).

(** [c] is one of the digits 0 to 9. *)
Definition is_digit (c : ascii) : bool := Py.between "0" "9" c.

(** An integer text: digits, or a minus sign and digits. *)
Definition int_text (s : str) : Prop :=
  exists c ds,
    (s = c :: ds \/ s = "-"%char :: c :: ds)
    /\ is_digit c = true /\ Forall (fun c => is_digit c = true) ds.

(** The characters a TFORM may end with: all but the newline. *)
Definition not_newline (c : ascii) : bool := negb (Ascii.eqb c "010").

(** A TFORM of the grammar: digits or none, then a type code, then
    characters that are not newlines. *)
Definition tform_ok (tform : str) : bool :=
  match Py.lstrip_with is_digit tform with
  | code :: rest => Py.one_of "LXBIJKAEDCM" code && forallb not_newline rest
  | [] => false
  end.

(** The exceptions of [skip_data] and [hdu]: none of them is a TypeError
    raised by the program, nor HDUError. *)
Definition data_error (e : exn) : Prop :=
  match e with
  | KeyError _ | ValueError _ | BuiltinError | OSError
  | MmapError | NumpyError => True
  | HDUError | TypeError _ => False
  end.

Definition raises_data_errors {A} (o : outcome A) : Prop :=
  match o with
  | Ok _ => True
  | Raise e => data_error e
  | OutOfFuel => False
  end.

(** The first entry of a header is SIMPLE with the boolean true. *)
Definition primary_header (header : dict) : Prop :=
  exists rest, header = ("SIMPLE" : str, VBool true) :: rest.

(** The first entry of a header is XTENSION with a string. *)
Definition extension_header (header : dict) : Prop :=
  exists s rest, header = ("XTENSION" : str, VStr s) :: rest.

(** The value of the [k]-th entry (from 0) with the keyword [K]. *)
Fixpoint occurrence (es : list (str * value)) (K : str) (k : nat)
  : option value :=
  match es with
  | [] => None
  | (K', v) :: es' =>
      if Py.str_eqb K' K then
        match k with
        | O => Some v
        | S k' => occurrence es' K k'
        end
      else occurrence es' K k
  end.

(** A keyword as [parse_keyword] makes it: at most eight characters and
    no space at its end. *)
Definition keyword_shape (K : str) : Prop :=
  (length K <= 8)%nat /\ Py.rstrip_spaces K = K.

(** [sample_repeated] with records after its terminator. *)
Definition sample_padded : file :=
  file_of ["SIMPLE  =                    T / a comment";
           "BITPIX  =                    8";
           "NAXIS   =                    0";
           "COMMENT hello";
           "COMMENT world";
           "FOO     = 1";
           "FOO     = 2";
           "FOO     = 3";
           "EXTEND  =                    F";
           "END";
           "FOO     = 4";
           "SIMPLE  = 'not read'"] (repeat x00 100).

(** A primary header without data and an image extension of 100 by 20
    elements of 16 bits, whose 4000 bytes are padded to two blocks; the
    header of the extension, and the file when that header is read. *)
Definition sample_image : file :=
  file_of ["SIMPLE  =                    T";
           "BITPIX  =                    8";
           "NAXIS   =                    0";
           "EXTEND  =                    T";
           "END"]
          (content (file_of ["XTENSION= 'IMAGE   '";
                             "BITPIX  =                   16";
                             "NAXIS   =                    2";
                             "NAXIS1  =                  100";
                             "NAXIS2  =                   20";
                             "END"] (repeat x00 (2 * 2880)))).

Definition header_image : dict :=
  [("XTENSION" : str, VStr "IMAGE   "); ("BITPIX" : str, VInt 16);
   ("NAXIS" : str, VInt 2); ("NAXIS1" : str, VInt 100);
   ("NAXIS2" : str, VInt 20)].

Definition sample_image_data : file :=
  {| content := content sample_image; pos := (2 * 2880)%nat |}.

(** The header of a table of two fields, the second without a name. *)
Definition header_table : dict :=
  [("XTENSION" : str, VStr "BINTABLE"); ("BITPIX" : str, VInt 8);
   ("NAXIS" : str, VInt 2); ("NAXIS1" : str, VInt 14);
   ("NAXIS2" : str, VInt 3); ("TFIELDS" : str, VInt 2);
   ("TTYPE1" : str, VStr "ID   "); ("TFORM1" : str, VStr "1J");
   ("TFORM2" : str, VStr "10A")].

(** A primary header that announces extensions, with nothing after it. *)
Definition sample_extend_alone : file :=
  file_of ["SIMPLE  =                    T";
           "BITPIX  =                    8";
           "NAXIS   =                    0";
           "EXTEND  =                    T";
           "END"] [].

(** A primary header and an image extension, both without data. *)
Definition sample_two_units : file :=
  file_of ["SIMPLE  =                    T";
           "BITPIX  =                    8";
           "NAXIS   =                    0";
           "EXTEND  =                    T";
           "END"]
          (content (file_of ["XTENSION= 'IMAGE   '";
                             "BITPIX  =                   16";
                             "NAXIS   =                    0";
                             "END"] [])).

End Further.

(* ================================================================= *)
(** * Properties *)

Import Re.
Import Header.
Import Fits.
Import Notions.
Import Further.

(** ** Strings and regular expressions *)

Lemma str_eqb_eq (a b : str) : Py.str_eqb a b = true <-> a = b.
Proof.
  revert b; induction a as [|x a IH]; intros [|y b]; simpl; split;
    try congruence; try reflexivity.
  - intros H. apply andb_true_iff in H as [H1 H2].
    apply Ascii.eqb_eq in H1. apply IH in H2. congruence.
  - intros H. injection H as -> ->. rewrite Ascii.eqb_refl. simpl.
    now apply IH.
Qed.

Lemma str_eqb_refl (a : str) : Py.str_eqb a a = true.
Proof. now apply str_eqb_eq. Qed.

Lemma str_eqb_neq (a b : str) : Py.str_eqb a b = false <-> a <> b.
Proof.
  rewrite <- str_eqb_eq. destruct (Py.str_eqb a b); split; congruence.
Qed.

Lemma run_sound (r : regex) :
  forall s m k res,
    run r s m k = Some res ->
    exists s' m', matches r s s' m m' /\ k s' m' = Some res.
Proof.
  induction r as [|p|r1 IH1 r2 IH2|r1 IH1 r2 IH2|r IH|name r IH];
    intros s m k res H; simpl in H.
  - exists s, m. split; [constructor | assumption].
  - destruct s as [|c s]; [discriminate|].
    destruct (p c) eqn:Hp; [|discriminate].
    exists s, m. split; [now constructor | assumption].
  - apply IH1 in H as (s1 & m1 & H1 & H).
    apply IH2 in H as (s2 & m2 & H2 & H).
    exists s2, m2. split; [econstructor; eassumption | assumption].
  - destruct (run r1 s m k) as [res'|] eqn:E.
    + injection H as ->. apply IH1 in E as (s' & m' & H1 & H).
      exists s', m'. split; [now apply M_Alt_l | assumption].
    + apply IH2 in H as (s' & m' & H2 & H).
      exists s', m'. split; [now apply M_Alt_r | assumption].
  - revert H. generalize (length s) as fuel. intros fuel. revert s m.
    induction fuel as [|fuel IHf]; intros s m H.
    + exists s, m. split; [constructor | assumption].
    + match type of H with
      | match ?x with _ => _ end = _ => destruct x as [res'|] eqn:E
      end.
      * injection H as ->. apply IH in E as (s1 & m1 & H1 & E).
        destruct (length s1 <? length s)%nat; [|discriminate].
        apply IHf in E as (s2 & m2 & H2 & E).
        exists s2, m2. split; [econstructor; eassumption | assumption].
      * exists s, m. split; [constructor | assumption].
  - apply IH in H as (s' & m' & H1 & H).
    eexists s', _. split; [constructor; eassumption | assumption].
Qed.

(** What a match consumes is a prefix, made of characters of its classes. *)
Lemma matches_prefix P r s s' m m' :
  classes_within P r -> matches r s s' m m' ->
  exists pre, s = pre ++ s' /\ Forall (fun c => P c = true) pre.
Proof.
  intros HP H. induction H; simpl in HP.
  - exists []. auto.
  - exists [c]. auto.
  - destruct HP as [HP1 HP2].
    destruct (IHmatches1 HP1) as (p1 & -> & F1).
    destruct (IHmatches2 HP2) as (p2 & -> & F2).
    exists (p1 ++ p2). rewrite <- app_assoc. split; [reflexivity|].
    apply Forall_app; auto.
  - apply IHmatches, HP.
  - apply IHmatches, HP.
  - exists []. auto.
  - destruct (IHmatches1 HP) as (p1 & -> & F1).
    destruct (IHmatches2 HP) as (p2 & -> & F2).
    exists (p1 ++ p2). rewrite <- app_assoc. split; [reflexivity|].
    apply Forall_app; auto.
  - apply IHmatches, HP.
Qed.

Lemma matches_captures P r s s' m m' :
  classes_within P r -> matches r s s' m m' ->
  captures_within P m -> captures_within P m'.
Proof.
  intros HP H. induction H; simpl in HP; intros Hm.
  all: try solve [auto | destruct HP; auto].
  destruct (matches_prefix P _ _ _ _ _ HP H) as (pre & -> & F).
  constructor; [|now apply IHmatches]. simpl.
  rewrite length_app.
  replace (length pre + length s' - length s')%nat with (length pre) by lia.
  rewrite firstn_app, firstn_all, Nat.sub_diag. simpl.
  now rewrite app_nil_r.
Qed.

Lemma star_chr_nil p m k : run (Star (Chr p)) [] m k = k [] m.
Proof. reflexivity. Qed.

Lemma star_chr_cons p c s m k :
  run (Star (Chr p)) (c :: s) m k =
  if p c then
    match run (Star (Chr p)) s m k with
    | Some x => Some x
    | None => k (c :: s) m
    end
  else k (c :: s) m.
Proof.
  simpl. destruct (p c); [|reflexivity].
  replace (length s <? S (length s))%nat with true; [reflexivity|].
  symmetry. apply Nat.ltb_lt. lia.
Qed.

Lemma star_printable_quote b m K R :
  Forall (fun c => printable_char c = true) b ->
  K [] m = Some R ->
  run (Star printable) (b ++ ["'"%char]) m
      (fun s' m' => run (Lit "'") s' m' K) = Some R.
Proof.
  intros Hb HK. unfold printable. induction Hb as [|c b Hc Hb IH].
  - simpl app. rewrite star_chr_cons, star_chr_nil. simpl. exact HK.
  - simpl app. rewrite star_chr_cons. fold (printable_char c).
    rewrite Hc, IH. reflexivity.
Qed.

Lemma parse_quoted b :
  Forall (fun c => printable_char c = true) b ->
  parse_keyword_value ("'"%char :: b ++ ["'"%char])
  = Ok (Some (VStr (Py.replace_qq_q b)), None).
Proof.
  intros Hb. unfold parse_keyword_value, fullmatch, keyword_value_regex, PARSE.
  set (s := "'"%char :: b ++ ["'"%char]).
  assert (E : run (spaces >> Opt VALUE >> spaces >> Opt COMMENT) s [] at_end
              = Some [("value" : str, s); ("string" : str, s)]).
  { unfold spaces at 1. change (run (?a >> ?b) ?s ?m ?k)
      with (run a s m (fun s' m' => run b s' m' k)).
    unfold Lit at 1. unfold s at 1. rewrite star_chr_cons.
    change (Ascii.eqb " " "'") with false. cbv iota.
    change (run (Opt VALUE >> ?b) ?s ?m ?k)
      with (match run VALUE s m (fun s' m' => run b s' m' k) with
            | Some x => Some x
            | None => run b s m k
            end).
    assert (E : forall k R,
               k [] [("value" : str, s); ("string" : str, s)] = Some R ->
               run VALUE ("'"%char :: b ++ ["'"%char]) [] k = Some R).
    { intros k R Hk. unfold VALUE.
      change (run (Group ?n (?a </> ?r)) ?s ?m ?k)
        with (let k' := fun s' m' =>
                          k s' ((n, firstn (length s - length s') s) :: m') in
              match run a s m k' with
              | Some x => Some x
              | None => run r s m k'
              end).
      cbv zeta.
      match goal with
      | |- match ?x with _ => _ end = _ =>
          assert (E : x = Some R); [|now rewrite E]
      end.
      unfold STR, Plus.
      change (run (Group ?n ((Lit "'" >> ?a >> ?c) >> ?r)) (?q :: ?s) ?m ?k)
        with (run a s m
                  (fun s1 m1 =>
                     run c s1 m1
                         (fun s2 m2 =>
                            run r s2 m2
                                (fun s' m' =>
                                   k s' ((n, firstn (length (q :: s) - length s')
                                                    (q :: s)) :: m'))))).
      apply star_printable_quote; [assumption|].
      cbv beta. change (run (Star ?r) [] ?m ?k) with (k [] m). cbv beta.
      change (length (@nil ascii)) with 0%nat.
      rewrite !Nat.sub_0_r, !firstn_all.
      exact Hk. }
    erewrite E; [reflexivity|]. reflexivity. }
  rewrite E. cbn -[Py.replace_qq_q Py.slice_1_m1 s].
  unfold s, Py.slice_1_m1. cbn [tl]. now rewrite removelast_last.
Qed.

Lemma replace_qq_q_other c t :
  c <> "'"%char -> Py.replace_qq_q (c :: t) = c :: Py.replace_qq_q t.
Proof.
  intros Hc. destruct c as [[] [] [] [] [] [] [] []];
    try reflexivity; congruence.
Qed.

Lemma replace_qq_q_quote_other d t :
  d <> "'"%char ->
  Py.replace_qq_q ("'"%char :: d :: t) = "'"%char :: Py.replace_qq_q (d :: t).
Proof.
  intros Hd. destruct d as [[] [] [] [] [] [] [] []];
    try reflexivity; congruence.
Qed.

Lemma replace_escape s : Py.replace_qq_q (escape s) = s.
Proof.
  induction s as [|c s IH]; [reflexivity|]. simpl escape.
  destruct (Ascii.eqb_spec c "'") as [->|Hc].
  - simpl. now rewrite IH.
  - rewrite replace_qq_q_other by assumption. now rewrite IH.
Qed.

Lemma escape_printable s :
  Forall (fun c => printable_char c = true) s ->
  Forall (fun c => printable_char c = true) (escape s).
Proof.
  induction 1 as [|c s Hc Hs IH]; simpl; [constructor|].
  destruct (Ascii.eqb_spec c "'") as [->|Hn]; repeat constructor; auto.
Qed.

Lemma replace_qq_q_printable s :
  Forall (fun c => printable_char c = true) s ->
  Forall (fun c => printable_char c = true) (Py.replace_qq_q s).
Proof.
  enough (H : forall n s, (length s <= n)%nat ->
                Forall (fun c => printable_char c = true) s ->
                Forall (fun c => printable_char c = true) (Py.replace_qq_q s))
    by (apply (H (length s)); lia).
  clear s. induction n as [|n IH]; intros s Hn Hs.
  - destruct s; [constructor | simpl in Hn; lia].
  - destruct s as [|c s]; [constructor|].
    destruct (Ascii.eqb_spec c "'") as [->|Hc].
    + destruct s as [|d s]; [repeat constructor|].
      inversion Hs as [|? ? Hc Hs']; subst. inversion Hs' as [|? ? Hd Hs'']; subst.
      simpl in Hn.
      destruct (Ascii.eqb_spec d "'") as [->|Hd'].
      * simpl. constructor; [reflexivity|]. apply IH; [lia | assumption].
      * rewrite replace_qq_q_quote_other by assumption.
        constructor; [reflexivity|]. apply IH; [simpl; lia | assumption].
    + rewrite replace_qq_q_other by assumption.
      inversion Hs; subst. simpl in Hn. constructor; [assumption|].
      apply IH; [lia | assumption].
Qed.

Lemma classes_printable_PARSE : classes_within printable_char PARSE.
Proof.
  unfold PARSE, VALUE, COMMENT, COMPLEX, FLOAT, INT, BOOL, STR, spaces,
    printable, digit, sign, Opt, Plus, Lit.
  simpl. repeat split; trivial;
    intros [[] [] [] [] [] [] [] []]; vm_compute; congruence.
Qed.

Lemma group_within P m name s :
  captures_within P m -> group m name = Some s ->
  Forall (fun c => P c = true) s.
Proof.
  induction 1 as [|[n t] m Ht Hm IH]; simpl; [discriminate|].
  destruct (Py.str_eqb n name); [|assumption].
  intros [= <-]. exact Ht.
Qed.

Lemma Forall_removelast {A} (P : A -> Prop) l :
  Forall P l -> Forall P (removelast l).
Proof.
  induction 1 as [|x l Hx Hl IH]; simpl; [constructor|].
  destruct l; [constructor|]. constructor; assumption.
Qed.

Lemma string_value_printable expr s c :
  parse_keyword_value expr = Ok (Some (VStr s), c) ->
  Forall (fun c => printable_char c = true) s.
Proof.
  unfold parse_keyword_value, fullmatch.
  destruct (run keyword_value_regex expr [] at_end) as [m|] eqn:E;
    [|discriminate].
  apply run_sound in E as (s' & m' & Hm & He).
  unfold at_end in He. destruct s'; [|discriminate]. injection He as ->.
  pose proof (matches_captures _ _ _ _ _ _ classes_printable_PARSE Hm
                               (Forall_nil _)) as Hc.
  destruct (group m "value"); [|discriminate].
  destruct (group m "string") as [tok|] eqn:Es.
  - simpl. intros [= <- _]. apply replace_qq_q_printable.
    unfold Py.slice_1_m1. apply Forall_removelast.
    pose proof (group_within _ _ _ _ Hc Es) as Ht.
    destruct tok; [constructor | now inversion Ht].
  - destruct (group m "bool"); [discriminate|].
    destruct (group m "int"); [discriminate|].
    destruct (group m "float") as [f|].
    + destruct (py_float (Py.replace_char "D" "E" f)); discriminate.
    + destruct (group m "complex"); [|discriminate].
      destruct (group m "real") as [re|], (group m "imag") as [im|];
        try discriminate.
      destruct (py_float re); try discriminate.
      destruct (py_float im); discriminate.
Qed.

Lemma string_round_trip expr s c :
  parse_keyword_value expr = Ok (Some (VStr s), c) ->
  parse_keyword_value (literal s) = Ok (Some (VStr s), None).
Proof.
  intros H. apply string_value_printable in H.
  unfold literal. rewrite parse_quoted by now apply escape_printable.
  now rewrite replace_escape.
Qed.

(** *** Dictionaries *)

Lemma dict_mem_true d key : dict_mem d key = true <-> In key (map fst d).
Proof.
  unfold dict_mem. induction d as [|[k v] d IH]; simpl.
  - split; [discriminate | tauto].
  - destruct (Py.str_eqb k key) eqn:E.
    + apply str_eqb_eq in E. tauto.
    + apply str_eqb_neq in E. rewrite IH. tauto.
Qed.

Lemma dict_mem_false d key : dict_mem d key = false <-> ~ In key (map fst d).
Proof.
  rewrite <- dict_mem_true. destruct (dict_mem d key); split; congruence.
Qed.

Lemma dict_set_fresh d key v :
  dict_mem d key = false -> dict_set d key v = d ++ [(key, v)].
Proof.
  unfold dict_mem. induction d as [|[k w] d IH]; simpl; [reflexivity|].
  destruct (Py.str_eqb k key); [discriminate|].
  intros H. now rewrite IH.
Qed.

(** *** Decimal names *)

Lemma digits_of_uint_inj a : forall b,
  Py.digits_of_uint a = Py.digits_of_uint b -> a = b.
Proof.
  induction a; intros b; destruct b; simpl; intros H;
    try discriminate; try reflexivity;
    injection H as H; f_equal; auto.
Qed.

Lemma str_of_nat_inj a b : Py.str_of_nat a = Py.str_of_nat b -> a = b.
Proof.
  unfold Py.str_of_nat. intros H. apply digits_of_uint_inj in H.
  rewrite <- (Unsigned.of_to a), <- (Unsigned.of_to b). now rewrite H.
Qed.

Lemma digits_no_dot d : no_dot (Py.digits_of_uint d).
Proof.
  unfold no_dot. induction d; simpl; intros H; [exact H|..];
    (destruct H as [H|H]; [discriminate | auto]).
Qed.

Lemma synth_succ K k :
  synth K (S k) = K ++ "."%char :: Py.str_of_nat (S k).
Proof. reflexivity. Qed.

Lemma synth_inj K a b : synth K a = synth K b -> a = b.
Proof.
  destruct a as [|a], b as [|b]; [reflexivity| | |].
  - rewrite synth_succ. simpl. intros H. apply (f_equal (@length ascii)) in H.
    rewrite length_app in H. simpl in H. lia.
  - rewrite synth_succ. simpl. intros H. apply (f_equal (@length ascii)) in H.
    rewrite length_app in H. simpl in H. lia.
  - rewrite !synth_succ. intros H. apply app_inv_head in H.
    injection H as H. now apply str_of_nat_inj.
Qed.

Lemma app_dot_inj a : forall b x y,
  no_dot a -> no_dot b -> a ++ "."%char :: x = b ++ "."%char :: y ->
  a = b /\ x = y.
Proof.
  unfold no_dot. induction a as [|c a IH]; intros [|d b] x y Ha Hb H;
    simpl in *.
  - injection H as H. auto.
  - injection H as H1 H2. subst d. tauto.
  - injection H as H1 H2. subst c. tauto.
  - injection H as H1 H2. subst d.
    destruct (IH b x y) as [-> ->]; auto.
Qed.

Lemma synth_no_dot_inj K K' a b :
  no_dot K -> no_dot K' -> synth K a = synth K' b -> K = K' /\ a = b.
Proof.
  intros HK HK'. destruct a as [|a], b as [|b].
  - simpl. auto.
  - rewrite synth_succ. simpl. intros ->. exfalso. apply HK.
    apply in_or_app. right. now left.
  - rewrite synth_succ. simpl. intros <-. exfalso. apply HK'.
    apply in_or_app. right. now left.
  - rewrite !synth_succ. intros H.
    apply app_dot_inj in H as [-> H]; auto.
    split; [reflexivity|]. now apply str_of_nat_inj.
Qed.

(** *** The probe *)

Lemma probe_finds c : forall fuel keywords K ndup,
  (ndup <= c)%nat ->
  (forall j, (ndup <= j < c)%nat -> dict_mem keywords (synth K j) = true) ->
  dict_mem keywords (synth K c) = false ->
  (c - ndup <= fuel)%nat ->
  probe fuel keywords K ndup (synth K ndup) = Ok (synth K c).
Proof.
  intros fuel. revert c.
  induction fuel as [|fuel IH]; intros c keywords K ndup Hle Hin Hout Hf.
  - assert (c = ndup) by lia. subst c. simpl. now rewrite Hout.
  - destruct (Nat.eq_dec c ndup) as [->|Hne].
    + simpl. now rewrite Hout.
    + simpl. rewrite Hin by lia.
      apply (IH c keywords K (S ndup)); auto; try lia.
      intros j Hj. apply Hin. lia.
Qed.

Lemma first_unused keywords K n :
  (exists j, (j <= n)%nat /\ dict_mem keywords (synth K j) = false) ->
  exists c, (c <= n)%nat
            /\ (forall j, (j < c)%nat -> dict_mem keywords (synth K j) = true)
            /\ dict_mem keywords (synth K c) = false.
Proof.
  induction n as [|n IH]; intros (j & Hj & Hm).
  - assert (j = 0)%nat by lia. subst j. exists 0%nat.
    split; [lia|]. split; [intros; lia | assumption].
  - destruct (existsb (fun i => negb (dict_mem keywords (synth K i)))
                      (seq 0 (S n))) eqn:E.
    + apply existsb_exists in E as (i & Hi & Hn).
      apply in_seq in Hi. apply negb_true_iff in Hn.
      destruct IH as (c & Hc & Hlt & Hout); [exists i; split; [lia|auto]|].
      exists c. split; [lia | auto].
    + assert (Hall : forall i, (i <= n)%nat ->
                               dict_mem keywords (synth K i) = true).
      { intros i Hi.
        destruct (dict_mem keywords (synth K i)) eqn:Ei; [reflexivity|].
        assert (existsb (fun i => negb (dict_mem keywords (synth K i)))
                        (seq 0 (S n)) = true) as Hx; [|congruence].
        apply existsb_exists. exists i. split; [apply in_seq; lia|].
        now rewrite Ei. }
      assert (j = S n).
      { destruct (Nat.eq_dec j (S n)); [assumption|].
        rewrite Hall in Hm by lia. discriminate. }
      subst j. exists (S n). split; [lia|]. split; [|assumption].
      intros i Hi. apply Hall. lia.
Qed.

Lemma some_name_unused keywords K :
  exists j, (j <= length keywords)%nat
            /\ dict_mem keywords (synth K j) = false.
Proof.
  set (n := length keywords).
  destruct (existsb (fun i => negb (dict_mem keywords (synth K i)))
                    (seq 0 (S n))) eqn:E.
  - apply existsb_exists in E as (i & Hi & Hn).
    apply in_seq in Hi. apply negb_true_iff in Hn.
    exists i. split; [lia | assumption].
  - exfalso.
    assert (Hincl : incl (map (synth K) (seq 0 (S n))) (map fst keywords)).
    { intros name Hname. apply in_map_iff in Hname as (i & <- & Hi).
      apply dict_mem_true.
      destruct (dict_mem keywords (synth K i)) eqn:Ei; [reflexivity|].
      assert (existsb (fun i => negb (dict_mem keywords (synth K i)))
                      (seq 0 (S n)) = true) as Hx; [|congruence].
      apply existsb_exists. exists i. split; [assumption|]. now rewrite Ei. }
    assert (Hnd : NoDup (map (synth K) (seq 0 (S n)))).
    { apply Injective_map_NoDup; [|apply seq_NoDup].
      intros a b. apply synth_inj. }
    apply NoDup_incl_length in Hincl; [|assumption].
    rewrite !length_map, length_seq in Hincl. unfold n in Hincl. lia.
Qed.

(** The insertion finds the first unused name and adds the entry at the
    end of the dictionary. *)
Lemma store_spec keywords K v :
  exists c, (c <= length keywords)%nat
    /\ (forall j, (j < c)%nat -> dict_mem keywords (synth K j) = true)
    /\ dict_mem keywords (synth K c) = false
    /\ store keywords K v = Ok (keywords ++ [(synth K c, v)]).
Proof.
  destruct (first_unused keywords K (length keywords)
                         (some_name_unused keywords K))
    as (c & Hc & Hin & Hout).
  exists c. repeat split; auto.
  unfold store.
  change K with (synth K 0) at 2.
  rewrite (probe_finds c); auto; try lia.
  - simpl. now rewrite dict_set_fresh.
  - intros j Hj. apply Hin. lia.
Qed.

(** *** Insertions in sequence *)

Lemma store_all_app es1 es2 keywords :
  store_all keywords (es1 ++ es2)
  = (d <- store_all keywords es1 ;; store_all d es2).
Proof.
  revert keywords. induction es1 as [|[K v] es1 IH]; intros keywords; simpl.
  - reflexivity.
  - destruct (store keywords K v); simpl; auto.
Qed.

(** *** Names by occurrence count *)

Lemma occurrences_app K seen K' :
  occurrences K (seen ++ [K'])
  = (occurrences K seen + (if Py.str_eqb K' K then 1 else 0))%nat.
Proof.
  induction seen as [|x seen IH]; simpl.
  - destruct (Py.str_eqb K' K); reflexivity.
  - destruct (Py.str_eqb x K); rewrite IH; lia.
Qed.

Lemma occurrences_pos K seen :
  (0 < occurrences K seen)%nat -> In K seen.
Proof.
  induction seen as [|x seen IH]; simpl; [lia|].
  destruct (Py.str_eqb x K) eqn:E.
  - apply str_eqb_eq in E. auto.
  - auto.
Qed.

Lemma store_all_label es : forall seen keywords,
  Forall no_dot seen -> Forall no_dot (map fst es) ->
  named seen keywords ->
  store_all keywords es = Ok (keywords ++ label seen es).
Proof.
  induction es as [|[K v] es IH]; intros seen keywords Hseen Hes Hnamed.
  - simpl. now rewrite app_nil_r.
  - simpl in Hes. inversion Hes as [|? ? HK Hes']; subst.
    simpl. destruct (store_spec keywords K v) as (c & _ & Hin & Hout & E).
    rewrite E. simpl bind.
    set (o := occurrences K seen).
    assert (Hc : c = o).
    { destruct (Nat.lt_trichotomy c o) as [Hlt|[Heq|Hgt]];
        [exfalso | assumption | exfalso].
      - apply dict_mem_false in Hout. apply Hout, Hnamed.
        exists K, c. auto.
      - specialize (Hin o Hgt). apply dict_mem_true, Hnamed in Hin.
        destruct Hin as (K' & j & Hj & Heq).
        assert (HK' : no_dot K').
        { rewrite Forall_forall in Hseen. apply Hseen, occurrences_pos. lia. }
        apply synth_no_dot_inj in Heq as [<- <-]; auto. fold o in Hj. lia. }
    subst c. rewrite (IH (seen ++ [K])%list).
    + now rewrite <- app_assoc.
    + apply Forall_app. split; [assumption | repeat constructor; assumption].
    + assumption.
    + intros name. rewrite map_app, in_app_iff. simpl. rewrite (Hnamed name).
      split.
      * intros [(K' & j & Hj & ->)|[<-|[]]].
        -- exists K', j. rewrite occurrences_app. split; [lia | reflexivity].
        -- exists K, o. rewrite occurrences_app, str_eqb_refl. fold o.
           split; [lia | reflexivity].
      * intros (K' & j & Hj & ->). rewrite occurrences_app in Hj.
        destruct (Py.str_eqb K K') eqn:EK.
        -- apply str_eqb_eq in EK. subst K'. fold o in Hj.
           destruct (Nat.eq_dec j o) as [->|Hne]; [right; now left|].
           left. exists K, j. split; [fold o; lia | reflexivity].
        -- left. exists K', j. split; [lia | reflexivity].
Qed.

(** *** One record *)

Lemma parse_keyword_end record :
  is_end record = true -> parse_keyword record = Ok (None, None, None).
Proof. unfold is_end, parse_keyword. now intros ->. Qed.

Lemma parse_keyword_not_end record k v c :
  is_end record = false -> parse_keyword record = Ok (k, v, c) ->
  k = Some (Py.rstrip_spaces (Py.slice record 0 8)).
Proof.
  unfold is_end, parse_keyword. intros ->.
  match goal with |- context [if ?b then _ else _] => destruct b end.
  - destruct (parse_keyword_value _) as [[v' c']| |]; simpl; congruence.
  - congruence.
Qed.

Lemma read_record_ok primary keywords n record keywords' n' ended :
  read_record primary keywords n record = Ok (keywords', n', ended) ->
  n' = S n /\ ended = is_end record
  /\ store_all keywords (entry record) = Ok keywords'.
Proof.
  unfold read_record, entry.
  destruct (is_end record) eqn:Eend.
  - rewrite parse_keyword_end by assumption. simpl.
    destruct (_ && _); [discriminate|]. intros [= <- <- <-]. auto.
  - destruct (parse_keyword record) as [[[k v] c]|e|] eqn:E.
    + pose proof (parse_keyword_not_end _ _ _ _ Eend E) as ->.
      simpl bind. destruct (_ && _); [discriminate|].
      destruct v as [v|].
      * simpl. destruct (store keywords _ v) as [d| |]; simpl;
          [|discriminate..]. intros [= <- <- <-]. auto.
      * intros [= <- <- <-]. auto.
    + destruct e; try discriminate.
      destruct (S n =? 1)%nat; discriminate.
    + discriminate.
Qed.

Lemma store_all_inserted es : forall keywords d,
  store_all keywords es = Ok d ->
  exists tail, d = keywords ++ tail /\ inserted keywords es tail.
Proof.
  induction es as [|[K v] es IH]; intros keywords d H; simpl in H.
  - injection H as <-. exists []. rewrite app_nil_r. simpl. auto.
  - destruct (store_spec keywords K v) as (c & _ & Hin & Hout & E).
    rewrite E in H. simpl in H.
    apply IH in H as (tail & -> & Hins).
    exists ((synth K c, v) :: tail). rewrite <- app_assoc. simpl.
    split; [reflexivity|]. split; [reflexivity|]. split; [|assumption].
    exists c. auto.
Qed.

Lemma inserted_values es : forall keywords tail,
  inserted keywords es tail -> map snd tail = map snd es.
Proof.
  induction es as [|[K v] es IH]; intros keywords [|[name w] tail]; simpl;
    try tauto.
  intros (-> & _ & H). f_equal. eauto.
Qed.

Lemma inserted_nodup es : forall keywords tail,
  inserted keywords es tail -> NoDup (map fst keywords) ->
  NoDup (map fst (keywords ++ tail)).
Proof.
  induction es as [|[K v] es IH]; intros keywords [|[name w] tail]; simpl;
    try tauto.
  - intros _ H. now rewrite app_nil_r.
  - intros (-> & (c & -> & Hout & _) & H) Hnd.
    change (keywords ++ (synth K c, v) :: tail)
      with (keywords ++ [(synth K c, v)] ++ tail).
    rewrite app_assoc. apply (IH _ _ H).
    rewrite map_app. simpl.
    apply NoDup_app; [assumption | repeat constructor; auto |].
    intros name Hin [<-|[]]. apply dict_mem_false in Hout. auto.
Qed.

(** *** The records read from a block *)

Lemma until_end_app a b :
  until_end (a ++ b)
  = if existsb is_end a then until_end a else a ++ until_end b.
Proof.
  induction a as [|r a IH]; simpl; [reflexivity|].
  destruct (is_end r); simpl; [reflexivity|].
  rewrite IH. now destruct (existsb is_end a).
Qed.

Lemma until_end_none a : existsb is_end a = false -> until_end a = a.
Proof.
  induction a as [|r a IH]; simpl; [reflexivity|].
  destruct (is_end r); simpl; [discriminate|]. intros H. now rewrite IH.
Qed.

Lemma entry_end r : is_end r = true -> entry r = [].
Proof. intros H. unfold entry. now rewrite parse_keyword_end. Qed.

Lemma read_records_ok offsets : forall primary block keywords n keywords' n' ended,
  read_records primary block keywords n offsets = Ok (keywords', n', ended) ->
  store_all keywords (entries (until_end (map (record_at block) offsets)))
  = Ok keywords'
  /\ ended = existsb is_end (map (record_at block) offsets)
  /\ (if ended then (n < n' <= n + length offsets)%nat
      else n' = (n + length offsets)%nat).
Proof.
  induction offsets as [|i offsets IH];
    intros primary block keywords n keywords' n' ended H; simpl in H.
  - injection H as <- <- <-. simpl. auto with arith.
  - fold (record_at block i) in H.
    destruct (read_record primary keywords n (record_at block i))
      as [[[k1 n1] e1]| |] eqn:E; simpl in H; try discriminate.
    apply read_record_ok in E as (-> & -> & E).
    simpl map. simpl until_end. simpl existsb. simpl length.
    destruct (is_end (record_at block i)) eqn:Eend.
    + injection H as <- <- <-. rewrite entry_end in E by assumption.
      simpl in *. repeat split; auto; lia.
    + apply IH in H as (H1 & H2 & H3). simpl.
      unfold entries in *. simpl flat_map. rewrite store_all_app, E. simpl.
      repeat split; auto.
      destruct ended; lia.
Qed.

Lemma read_header_loop_S fuel primary fp keywords nrecords :
  read_header_loop (S fuel) primary fp keywords nrecords =
  match read_block fp with
  | (None, fp) =>
      if (nrecords =? 0)%nat then (Raise HDUError, fp)
      else (Raise (TypeError "incomplete block in header"), fp)
  | (Some block, fp) =>
      if negb (block_printable block)
      then (Raise (TypeError "invalid characters in header"), fp)
      else
        match read_records primary block keywords nrecords block_offsets with
        | Ok (keywords', nrecords', ended) =>
            if ended : bool then (Ok keywords', fp)
            else read_header_loop fuel primary fp keywords' nrecords'
        | Raise e => (Raise e, fp)
        | OutOfFuel => (OutOfFuel, fp)
        end
  end.
Proof.
  cbn [read_header_loop]. destruct (read_block fp) as [[block|] fp1];
    [|reflexivity].
  unfold block_printable. now rewrite negb_involutive.
Qed.

Lemma records_loop_S fuel fp :
  records_loop (S fuel) fp =
  match read_block fp with
  | (Some block, fp') => block_records block ++ records_loop fuel fp'
  | (None, _) => []
  end.
Proof. reflexivity. Qed.

Lemma read_header_loop_ok primary fuel : forall fp keywords n d fp',
  read_header_loop fuel primary fp keywords n = (Ok d, fp') ->
  store_all keywords (entries (until_end (records_loop fuel fp))) = Ok d.
Proof.
  induction fuel as [|fuel IH]; intros fp keywords n d fp' H.
  - discriminate.
  - rewrite read_header_loop_S in H. rewrite records_loop_S.
    destruct (read_block fp) as [[block|] fp1].
    + destruct (negb _); [discriminate|].
      destruct (read_records primary block keywords n block_offsets)
        as [[[k1 n1] e1]| |] eqn:E; try discriminate.
      apply read_records_ok in E as (E1 & E2 & _).
      fold (block_records block) in E1, E2.
      rewrite until_end_app, <- E2.
      destruct e1.
      * injection H as <- <-. exact E1.
      * apply IH in H. unfold entries in *.
        rewrite flat_map_app, store_all_app.
        rewrite until_end_none in E1 by auto.
        rewrite E1. exact H.
    + destruct (n =? 0)%nat; discriminate.
Qed.

Lemma read_header_entries fp primary d fp' :
  read_header fp primary = (Ok d, fp') ->
  store_all [] (header_entries fp) = Ok d.
Proof. apply read_header_loop_ok. Qed.

Ltac inv H := inversion H; subst; clear H.

Lemma matches_no_group r s s' m m' :
  matches r s s' m m' -> group_names r = [] -> m' = m.
Proof.
  induction 1; simpl; intros Hg; try reflexivity.
  - apply app_eq_nil in Hg as [H1 H2].
    rewrite IHmatches2, IHmatches1; auto.
  - apply app_eq_nil in Hg as [H1 H2]. auto.
  - apply app_eq_nil in Hg as [H1 H2]. auto.
  - rewrite IHmatches2, IHmatches1; auto.
  - discriminate.
Qed.

Ltac no_group H := apply matches_no_group in H; [subst | reflexivity].

Ltac invert_match :=
  repeat match goal with
         | H : matches spaces _ _ _ _ |- _ => no_group H
         | H : matches STR _ _ _ _ |- _ => no_group H
         | H : matches BOOL _ _ _ _ |- _ => no_group H
         | H : matches INT _ _ _ _ |- _ => no_group H
         | H : matches FLOAT _ _ _ _ |- _ => no_group H
         | H : matches (Lit _) _ _ _ _ |- _ => no_group H
         | H : matches (Star _) _ _ _ _ |- _ => no_group H
         | H : matches VALUE _ _ _ _ |- _ => unfold VALUE in H
         | H : matches COMMENT _ _ _ _ |- _ => unfold COMMENT in H
         | H : matches COMPLEX _ _ _ _ |- _ => unfold COMPLEX in H
         | H : matches (Opt _) _ _ _ _ |- _ => unfold Opt in H
         | H : matches Eps _ _ _ _ |- _ => inv H
         | H : matches (Cat _ _) _ _ _ _ |- _ => inv H
         | H : matches (Group _ _) _ _ _ _ |- _ => inv H
         | H : matches (Alt _ _) _ _ _ _ |- _ => inv H
         end.

(** After a match of [PARSE], the group [complex] comes with the groups
    [real] and [imag]. *)
Lemma PARSE_complex expr m x :
  matches PARSE expr [] [] m ->
  group m "complex" = Some x ->
  exists re im, group m "real" = Some re /\ group m "imag" = Some im.
Proof.
  unfold PARSE. intros H. invert_match; simpl; intros Hx;
    try discriminate; eauto.
Qed.

Lemma parse_keyword_value_raises expr :
  match parse_keyword_value expr with
  | Ok _ => True
  | Raise e => exists ve, e = ValueError ve
  | OutOfFuel => False
  end.
Proof.
  unfold parse_keyword_value, fullmatch.
  destruct (run keyword_value_regex expr [] at_end) as [m|] eqn:E;
    [|eauto].
  apply run_sound in E as (s' & m' & Hm & He).
  unfold at_end in He. destruct s'; [|discriminate]. injection He as ->.
  destruct (group m "value"); [|exact I].
  destruct (group m "string"); [exact I|].
  destruct (group m "bool"); [exact I|].
  destruct (group m "int"); [exact I|].
  destruct (group m "float") as [f|].
  { unfold py_float. destruct (existsb _ _); simpl; eauto. }
  destruct (group m "complex") as [x|] eqn:Ex; [|exact I].
  destruct (PARSE_complex _ _ _ Hm Ex) as (re & im & -> & ->).
  unfold py_float.
  destruct (existsb _ re); simpl; eauto.
  destruct (existsb _ im); simpl; eauto.
Qed.

Lemma parse_keyword_raises record :
  match parse_keyword record with
  | Ok _ => True
  | Raise e => exists ve, e = ValueError ve
  | OutOfFuel => False
  end.
Proof.
  unfold parse_keyword.
  destruct (Py.str_eqb _ "END"); [exact I|].
  match goal with |- context [if ?b then _ else _] => destruct b end;
    [|exact I].
  pose proof (parse_keyword_value_raises (Py.slice_from record 10)) as H.
  destruct (parse_keyword_value _) as [[v c]|e|]; simpl; auto.
Qed.

(** *** Errors after the first record *)

Lemma store_ok keywords K v : exists d, store keywords K v = Ok d.
Proof. destruct (store_spec keywords K v) as (c & _ & _ & _ & E). eauto. Qed.

Lemma read_record_later primary keywords n record :
  n <> 0%nat ->
  match read_record primary keywords n record with
  | Ok _ => True
  | Raise e => exists kw exc, e = ValueError (InRecord (S n) kw exc)
  | OutOfFuel => False
  end.
Proof.
  intros Hn. unfold read_record.
  replace (S n =? 1)%nat with false by (symmetry; apply Nat.eqb_neq; lia).
  pose proof (parse_keyword_raises record) as Hp.
  destruct (parse_keyword record) as [[[k v] c]|e|]; [|destruct Hp as [ve ->]; simpl; eauto | contradiction].
  simpl. destruct k as [k|]; [|exact I]. destruct v as [v|]; [|exact I].
  destruct (store_ok keywords k v) as [d ->]. exact I.
Qed.

Lemma read_record_first primary keywords record :
  match read_record primary keywords 0 record with
  | Ok _ => record_fault primary record = false
  | Raise e => e = HDUError /\ record_fault primary record = true
  | OutOfFuel => False
  end.
Proof.
  unfold read_record, record_fault.
  pose proof (parse_keyword_raises record) as Hp.
  destruct (parse_keyword record) as [[[k v] c]|e|]; [|destruct Hp as [ve ->]; simpl; auto | contradiction].
  simpl. destruct (first_record_ok primary k v); simpl; [|auto].
  destruct k as [k|]; [|reflexivity]. destruct v as [v|]; [|reflexivity].
  destruct (store_ok keywords k v) as [d ->]. reflexivity.
Qed.

Lemma read_records_later offsets : forall primary block keywords n,
  n <> 0%nat ->
  match read_records primary block keywords n offsets with
  | Ok _ => True
  | Raise e => exists n' kw exc,
      (1 < n')%nat /\ e = ValueError (InRecord n' kw exc)
  | OutOfFuel => False
  end.
Proof.
  induction offsets as [|i offsets IH]; intros primary block keywords n Hn;
    simpl; [exact I|].
  pose proof (read_record_later primary keywords n
                (Py.decode_ascii (Py.slice block i (i + 80))) Hn) as H.
  destruct (read_record _ _ _ _) as [[[k1 n1] e1]|e|] eqn:E; simpl.
  - destruct e1; [exact I|].
    apply read_record_ok in E as (-> & _ & _). apply IH. lia.
  - destruct H as (kw & exc & ->). exists (S n), kw, exc. split; [lia|auto].
  - contradiction.
Qed.

Lemma malformed_not_HDUError e : malformed e -> e <> HDUError.
Proof.
  intros [->|[->|(n & kw & exc & _ & ->)]]; discriminate.
Qed.

Lemma read_header_loop_later primary fuel : forall fp keywords n,
  n <> 0%nat ->
  match fst (read_header_loop fuel primary fp keywords n) with
  | Raise e => malformed e
  | _ => True
  end.
Proof.
  induction fuel as [|fuel IH]; intros fp keywords n Hn; [exact I|].
  rewrite read_header_loop_S.
  destruct (read_block fp) as [[block|] fp1].
  - destruct (negb _); [simpl; unfold malformed; auto|].
    pose proof (read_records_later block_offsets primary block keywords n Hn)
      as H.
    destruct (read_records _ _ _ _ _) as [[[k1 n1] e1]|e|] eqn:E.
    + destruct e1; [exact I|]. apply IH.
      apply read_records_ok in E as (_ & _ & E). lia.
    + simpl. unfold malformed. auto.
    + exact I.
  - replace (n =? 0)%nat with false by (symmetry; apply Nat.eqb_neq; lia).
    simpl. unfold malformed. auto.
Qed.

Lemma block_offsets_eq : block_offsets = 0%nat :: Py.range 80 2880 80.
Proof. reflexivity. Qed.

Lemma read_records_cons primary block keywords n i offsets :
  read_records primary block keywords n (i :: offsets) =
  (' (keywords', n', ended) <-
      read_record primary keywords n (record_at block i) ;;
   if ended : bool then Ok (keywords', n', true)
   else read_records primary block keywords' n' offsets).
Proof. reflexivity. Qed.

(** The outcome of [read_header] by the first block and its first
    record. *)
Lemma read_header_first fp primary :
  match fst (read_header fp primary) with
  | Raise e => if first_fault fp primary then e = HDUError else malformed e
  | _ => first_fault fp primary = false
  end.
Proof.
  unfold read_header, first_fault. rewrite read_header_loop_S.
  destruct (read_block fp) as [[block|] fp1]; [|reflexivity].
  destruct (block_printable block); simpl negb; cbv iota;
    [|simpl; unfold malformed; auto].
  rewrite andb_true_l, block_offsets_eq.
  generalize (Py.range 80 2880 80). intros rest.
  rewrite read_records_cons.
  pose proof (read_record_first primary [] (record_at block 0)) as H.
  destruct (read_record primary [] 0 (record_at block 0))
    as [[[k1 n1] e1]|e|] eqn:E.
  - destruct (record_fault primary (record_at block 0)); [discriminate|].
    cbn [bind]. apply read_record_ok in E as (-> & _ & _).
    destruct e1; [exact eq_refl|].
    pose proof (read_records_later rest primary block k1 1%nat
                  ltac:(lia)) as H1.
    destruct (read_records _ _ _ _ _) as [[[k2 n2] e2]|e|] eqn:E2.
    + destruct e2; [exact eq_refl|].
      apply read_records_ok in E2 as (_ & _ & E2).
      pose proof (read_header_loop_later primary (length (content fp)) fp1 k2 n2
                    ltac:(lia)) as H2.
      destruct (fst (read_header_loop _ _ _ _ _)); auto.
    + simpl. unfold malformed. auto.
    + contradiction.
  - destruct H as [-> H].
    destruct (record_fault primary (record_at block 0)); [|discriminate].
    reflexivity.
  - contradiction.
Qed.

(** *** Termination of the reading loop *)

Lemma read_block_some fp block fp' :
  read_block fp = (Some block, fp') ->
  length block = 2880%nat
  /\ content fp' = content fp
  /\ pos fp' = (pos fp + 2880)%nat
  /\ (pos fp + 2880 <= length (content fp))%nat.
Proof.
  unfold read_block, readinto.
  generalize (eq_refl (firstn 2880 (skipn (pos fp) (content fp)))).
  generalize (firstn 2880 (skipn (pos fp) (content fp))) at 1 3 4 5.
  intros got Hgot.
  destruct (Nat.eqb_spec (length got) 2880) as [E|E]; [|discriminate].
  intros [= <- <-]. cbn [content pos]. rewrite E.
  repeat split; auto.
  rewrite Hgot, length_firstn, length_skipn in E. lia.
Qed.

Lemma read_records_fuel offsets : forall primary block keywords n,
  read_records primary block keywords n offsets <> OutOfFuel.
Proof.
  induction offsets as [|i offsets IH]; intros primary block keywords n;
    simpl; [discriminate|].
  destruct (read_record _ _ _ _) as [[[k1 n1] e1]|e|] eqn:E; simpl.
  - destruct e1; [discriminate | apply IH].
  - discriminate.
  - destruct n as [|n].
    + pose proof (read_record_first primary keywords
                    (Py.decode_ascii (Py.slice block i (i + 80)))) as H.
      now rewrite E in H.
    + pose proof (read_record_later primary keywords (S n)
                    (Py.decode_ascii (Py.slice block i (i + 80)))
                    ltac:(lia)) as H.
      now rewrite E in H.
Qed.

Lemma read_header_loop_fuel primary fuel : forall fp keywords n,
  (length (content fp) - pos fp < fuel)%nat ->
  fst (read_header_loop fuel primary fp keywords n) <> OutOfFuel.
Proof.
  induction fuel as [|fuel IH]; intros fp keywords n Hf; [lia|].
  rewrite read_header_loop_S.
  destruct (read_block fp) as [[block|] fp1] eqn:Eb.
  - apply read_block_some in Eb as (_ & Hc & Hp & Hl).
    destruct (negb _); [discriminate|].
    pose proof (read_records_fuel block_offsets primary block keywords n) as H.
    destruct (read_records _ _ _ _ _) as [[[k1 n1] e1]|e|];
      [|discriminate|contradiction].
    destruct e1; [discriminate|]. apply IH. rewrite Hc, Hp. lia.
  - destruct (n =? 0)%nat; discriminate.
Qed.

Lemma read_header_total fp primary :
  fst (read_header fp primary) <> OutOfFuel.
Proof. apply read_header_loop_fuel. lia. Qed.

(** *** The partition of a block into records *)

Lemma block_offsets_seq :
  block_offsets = map (fun k => k * 80)%nat (seq 0 36).
Proof. reflexivity. Qed.

Lemma concat_chunks {A} (n k : nat) : forall l : list A,
  length l = (k * n)%nat ->
  concat (map (fun j => firstn n (skipn (j * n) l)) (seq 0 k)) = l.
Proof.
  induction k as [|k IH]; intros l Hl.
  - destruct l; [reflexivity | discriminate].
  - cbn [seq map concat]. rewrite <- seq_shift, map_map.
    transitivity (firstn n l ++ skipn n l); [|apply firstn_skipn].
    f_equal.
    rewrite <- (IH (skipn n l)) by (rewrite length_skipn; lia).
    f_equal. apply map_ext. intros j. rewrite skipn_skipn.
    do 2 f_equal. lia.
Qed.

Lemma record_at_eq block i :
  record_at block i = Py.decode_ascii (firstn 80 (skipn i block)).
Proof.
  unfold record_at, Py.slice. do 2 f_equal. lia.
Qed.

Lemma block_records_eq block :
  block_records block
  = map (fun j => Py.decode_ascii (firstn 80 (skipn (j * 80) block)))
        (seq 0 36).
Proof.
  unfold block_records. rewrite block_offsets_seq, map_map.
  apply map_ext. intros j. apply record_at_eq.
Qed.

(* ================================================================= *)
(** * The claims *)

(** ** The records of a block (C1) *)

(** C1, as amended: a header block of 2880 bytes is cut into thirty-six
    records of 80 characters each, at the offsets 0, 80, ..., 2800 in
    that order, which together are the block, and the loop adds one to
    the record counter for each record it reads: thirty-six when the
    terminator is not in the block, at least one and at most thirty-six
    when it is. *)
Theorem block_has_36_records (block : list byte) :
  length block = 2880%nat ->
  length (block_records block) = 36%nat
  /\ block_offsets = map (fun k => k * 80)%nat (seq 0 36)
  /\ Forall (fun record => length record = 80%nat) (block_records block)
  /\ concat (block_records block) = Py.decode_ascii block
  /\ forall primary keywords n keywords' n' ended,
      read_records primary block keywords n block_offsets
      = Ok (keywords', n', ended) ->
      if ended then (n < n' <= n + 36)%nat else n' = (n + 36)%nat.
Proof.
  intros Hl. split; [|split; [|split; [|split]]].
  - unfold block_records. now rewrite length_map.
  - exact block_offsets_seq.
  - rewrite block_records_eq. apply Forall_forall. intros r Hr.
    apply in_map_iff in Hr as (j & <- & Hj). apply in_seq in Hj.
    unfold Py.decode_ascii. rewrite length_map, length_firstn, length_skipn.
    lia.
  - rewrite block_records_eq. unfold Py.decode_ascii.
    rewrite <- (map_map (fun j => firstn 80 (skipn (j * 80) block))
                        (map ascii_of_byte)).
    rewrite <- concat_map. f_equal. now apply concat_chunks.
  - intros primary keywords n keywords' n' ended H.
    apply read_records_ok in H as (_ & _ & H). exact H.
Qed.

(** The block of [sample_repeated]: its terminator is the tenth record. *)
Lemma block_has_36_records_witness :
  let block := content sample_repeated in
  length block = 2880%nat
  /\ length (block_records block) = 36%nat
  /\ (0 < 10 <= 0 + 36)%nat.
Proof.
  pose (block := content sample_repeated).
  assert (Hl : length block = 2880%nat) by (vm_compute; reflexivity).
  destruct (block_has_36_records block Hl) as (H36 & _ & _ & _ & Hn).
  split; [exact Hl|]. split; [exact H36|].
  refine (Hn true [] 0%nat
             (match read_records true block [] 0 block_offsets with
              | Ok (d, _, _) => d
              | _ => []
              end) 10%nat true _).
  vm_compute. reflexivity.
Defined.

(** C1 as stated fails: a block has thirty-six records, not eighteen, and
    a header of twenty records is read from a single block. *)
Lemma block_has_not_18_records :
  length (content sample_twenty) = 2880%nat
  /\ length (block_records (content sample_twenty)) <> 18%nat
  /\ exists d fp',
      read_header sample_twenty true = (Ok d, fp')
      /\ length d = 19%nat
      /\ pos fp' = 2880%nat.
Proof.
  split; [reflexivity|]. split; [vm_compute; discriminate|].
  eexists _, _. split; [vm_compute; reflexivity|].
  vm_compute. auto.
Qed.

(** ** The size of the data unit (C2) *)

(** C2, on a header with GCOUNT = 2 (BITPIX = 8, NAXIS = 1, NAXIS1 = 2880):
    [hdu] maps the 5760 bytes of the two groups, and [skip_data] moves
    the file 2880 bytes only, the size of one group; [load] then takes
    the second group for the next header and raises, where the claim has
    it pass the 5760 bytes and reach the extension. *)
Theorem skip_data_ignores_gcount :
  exists fp,
    read_header sample_groups true = (Ok header_groups, fp)
    /\ pos fp = 2880%nat
    /\ hdu sample_platform 4096 fp header_groups
       = Ok {| data := Mapped 0 (2880 + 5760) [2880] (DScalar ">u1") 2880;
               header := header_groups |}
    /\ skip_data sample_platform fp header_groups
       = Ok {| content := content sample_groups; pos := (2880 + 2880)%nat |}
    /\ fst (load sample_platform 8 4096 sample_groups)
       = Raise (TypeError "invalid characters in header").
Proof.
  eexists. split; [vm_compute; reflexivity|].
  repeat split; vm_compute; reflexivity.
Qed.

(** ** The format of a table field (C3) *)

(** C3, on the format 3X: the field is given the format ['>4u1'], four
    bytes, where the claim has one byte, the ceiling of 3/8; the count is
    raised by one when it is not a multiple of 8, and never divided. *)
Theorem bit_field_width :
  field_format 0 "3X" = Ok (">4u1" : str)
  /\ bintable_dtype [("TFIELDS" : str, VInt 1); ("TFORM1" : str, VStr "3X")]
     = Ok (DFields [("f0" : str, ">4u1" : str)])
  /\ field_format 0 "16X" = Ok (">16u1" : str)
  /\ field_format 0 "24A" = Ok (">U24" : str)
  /\ field_format 0 "2E5" = Ok (">2f4" : str).
Proof. repeat split; vm_compute; reflexivity. Qed.

(** ** Stopping after the primary unit (C4) *)

(** C4, as amended: when the primary header is read and its unit built,
    and the header holds EXTEND with a value that is not the boolean
    true, [load] returns the primary unit alone, whatever the fuel; when
    the header holds no EXTEND, [load] raises KeyError. *)
Theorem extend_not_true (P : platform) (fuel : nat) (granularity : Z)
        (fp fp' : file) (header : dict) (u : HduArray) :
  read_header fp true = (Ok header, fp') ->
  hdu P granularity fp' header = Ok u ->
  (forall v, dict_get header "EXTEND" = Some v -> v <> VBool true ->
             load P fuel granularity fp = (Ok [u], fp'))
  /\ (dict_get header "EXTEND" = None ->
      load P fuel granularity fp = (Raise (KeyError "EXTEND"), fp')).
Proof.
  intros Hh Hu. unfold load. rewrite Hh, Hu. unfold dict_item. split.
  - intros v -> Hv. destruct v as [s|[|]|i|f|re im]; congruence.
  - intros ->. reflexivity.
Qed.

(** [sample_repeated] has EXTEND = F. *)
Lemma extend_not_true_witness :
  exists header u fp',
    read_header sample_repeated true = (Ok header, fp')
    /\ hdu sample_platform 4096 fp' header = Ok u
    /\ dict_get header "EXTEND" = Some (VBool false)
    /\ load sample_platform 8 4096 sample_repeated = (Ok [u], fp').
Proof.
  pose (r := read_header sample_repeated true).
  pose (header := match fst r with Ok h => h | _ => [] end).
  pose (fp' := snd r).
  pose (u := {| data := Empty (DScalar ">u1"); header := header |}).
  assert (Hh : read_header sample_repeated true = (Ok header, fp'))
    by (vm_compute; reflexivity).
  assert (Hu : hdu sample_platform 4096 fp' header = Ok u)
    by (vm_compute; reflexivity).
  assert (He : dict_get header "EXTEND" = Some (VBool false))
    by (vm_compute; reflexivity).
  exists header, u, fp'.
  split; [exact Hh|]. split; [exact Hu|]. split; [exact He|].
  apply (proj1 (extend_not_true sample_platform 8 4096 sample_repeated fp'
                                header u Hh Hu)
               (VBool false) He).
  discriminate.
Defined.

(** C4 as stated fails when EXTEND is absent: [load] raises. *)
Lemma absent_extend_raises :
  fst (load sample_platform 8 4096 sample_no_extend) = Raise (KeyError "EXTEND").
Proof. vm_compute. reflexivity. Qed.

(** ** Headers without axes (C5) *)

(** C5, as amended: when the header holds NAXIS with an integer that is
    not above zero and its element type is resolved, [hdu] asks numpy
    for an empty array of that type and for no mapping: it returns the
    header with that array when numpy makes it, and raises numpy's
    exception when numpy refuses the type; when the header holds no
    NAXIS, [hdu] raises KeyError. *)
Theorem no_axes (P : platform) (granularity : Z) (fp : file) (header : dict) :
  (forall naxis n dt,
      dict_get header "NAXIS" = Some naxis ->
      as_int naxis = Some n -> n <= 0 ->
      dtype_from_header header = Ok dt ->
      hdu P granularity fp header
      = if np_empty P dt
        then Ok {| data := Empty dt; header := header |}
        else Raise NumpyError)
  /\ (dict_get header "NAXIS" = None ->
      hdu P granularity fp header = Raise (KeyError "NAXIS")).
Proof.
  unfold hdu, shape_from_header, dict_item. split.
  - intros naxis n dt -> Hn Hle Hdt.
    destruct naxis as [s|b|i|f|re im]; try discriminate;
      cbn [bind]; rewrite Hn;
      replace (n >? 0) with false
        by (symmetry; rewrite Z.gtb_ltb; apply Z.ltb_ge; exact Hle);
      cbn [bind]; rewrite Hdt; reflexivity.
  - intros ->. reflexivity.
Qed.

(** The header of [sample_repeated]: NAXIS = 0 and BITPIX = 8, an element
    type of which numpy makes an empty array. *)
Lemma no_axes_witness :
  exists header fp',
    read_header sample_repeated true = (Ok header, fp')
    /\ dict_get header "NAXIS" = Some (VInt 0)
    /\ dtype_from_header header = Ok (DScalar ">u1")
    /\ hdu sample_platform 4096 fp' header
       = Ok {| data := Empty (DScalar ">u1"); header := header |}.
Proof.
  pose (r := read_header sample_repeated true).
  pose (header := match fst r with Ok h => h | _ => [] end).
  exists header, (snd r).
  assert (Hn : dict_get header "NAXIS" = Some (VInt 0))
    by (vm_compute; reflexivity).
  assert (Hd : dtype_from_header header = Ok (DScalar ">u1"))
    by (vm_compute; reflexivity).
  split; [vm_compute; reflexivity|]. split; [exact Hn|]. split; [exact Hd|].
  exact (proj1 (no_axes sample_platform 4096 (snd r) header)
               (VInt 0) 0 (DScalar ">u1") Hn eq_refl ltac:(lia) Hd).
Defined.

(** C5 as stated fails when NAXIS is absent: [hdu] raises. *)
Lemma absent_naxis_raises :
  hdu sample_platform 4096 sample_empty
      [("SIMPLE" : str, VBool true); ("BITPIX" : str, VInt 8)]
  = Raise (KeyError "NAXIS").
Proof. reflexivity. Qed.

(** ** Repeated keywords (C6) *)

(** C6, as amended: when no keyword of a value-bearing record holds a
    dot, the header read is the list of those records in their order,
    the first record of a keyword under the keyword and its [k]-th
    repetition under [keyword.k]; the commentary keywords COMMENT,
    HISTORY and blank are keywords like the others here, their text
    being their value. *)
Theorem duplicates_named_by_count (fp fp' : file) (primary : bool) (d : dict) :
  read_header fp primary = (Ok d, fp') ->
  Forall no_dot (map fst (header_entries fp)) ->
  d = label [] (header_entries fp).
Proof.
  intros H Hdots. apply read_header_entries in H.
  rewrite (store_all_label (header_entries fp) [] []) in H; auto.
  - now injection H as <-.
  - intros name. simpl. split; [tauto|]. intros (K & j & Hj & _). lia.
Qed.

(** [sample_repeated] has FOO three times and COMMENT twice. *)
Lemma duplicates_named_by_count_witness :
  exists fp',
    let d : dict :=
      [("SIMPLE" : str, VBool true); ("BITPIX" : str, VInt 8);
       ("NAXIS" : str, VInt 0);
       ("COMMENT" : str, VStr "hello"); ("COMMENT.1" : str, VStr "world");
       ("FOO" : str, VInt 1); ("FOO.1" : str, VInt 2); ("FOO.2" : str, VInt 3);
       ("EXTEND" : str, VBool false)] in
    read_header sample_repeated true = (Ok d, fp')
    /\ Forall no_dot (map fst (header_entries sample_repeated))
    /\ d = label [] (header_entries sample_repeated).
Proof.
  exists (snd (read_header sample_repeated true)). intros d.
  assert (H : read_header sample_repeated true
              = (Ok d, snd (read_header sample_repeated true)))
    by (vm_compute; reflexivity).
  assert (Hdots : Forall no_dot (map fst (header_entries sample_repeated))).
  { vm_compute. repeat constructor; intros Hin;
      repeat (destruct Hin as [Hin|Hin]; [discriminate Hin|]); exact Hin. }
  split; [exact H|]. split; [exact Hdots|].
  exact (duplicates_named_by_count _ _ _ _ H Hdots).
Defined.

(** C6 as stated fails: the second COMMENT is stored under COMMENT.1, and
    the first repetition of A under A.2 when A.1 is a keyword of the
    header. *)
Lemma commentary_not_exempt :
  exists d fp',
    read_header sample_collision true = (Ok d, fp')
    /\ dict_get d "COMMENT" = Some (VStr "hello")
    /\ dict_get d "COMMENT.1" = Some (VStr "world")
    /\ dict_get d "A.1" = Some (VInt 5)
    /\ dict_get d "A" = Some (VInt 1)
    /\ dict_get d "A.2" = Some (VInt 2).
Proof.
  eexists _, _. split; [vm_compute; reflexivity|].
  repeat split.
Qed.

(** ** String values (C7) *)

(** C7: a token made of a quote, printable characters [b] and a quote is
    parsed to [b] with each doubled quote replaced by one quote, and the
    literal of that string, its quotes doubled and the whole between
    quotes, is parsed to the same string. *)
Theorem string_literal_round_trip (b : str) :
  Forall (fun c => printable_char c = true) b ->
  let s := Py.replace_qq_q b in
  parse_keyword_value ("'"%char :: b ++ ["'"%char]) = Ok (Some (VStr s), None)
  /\ parse_keyword_value (literal s) = Ok (Some (VStr s), None).
Proof.
  intros Hb s.
  assert (H : parse_keyword_value ("'"%char :: b ++ ["'"%char])
              = Ok (Some (VStr s), None)) by now apply parse_quoted.
  split; [exact H|]. exact (string_round_trip _ _ _ H).
Qed.

(** The token ['it''s'] is parsed to [it's]. *)
Lemma string_literal_round_trip_witness :
  Forall (fun c => printable_char c = true) ("it''s" : str)
  /\ parse_keyword_value "'it''s'" = Ok (Some (VStr "it's"), None)
  /\ parse_keyword_value (literal "it's") = Ok (Some (VStr "it's"), None).
Proof.
  assert (Hb : Forall (fun c => printable_char c = true) ("it''s" : str))
    by (repeat constructor).
  split; [exact Hb|].
  exact (string_literal_round_trip ("it''s" : str) Hb).
Defined.

(** ** The two kinds of failure of read_header (C8) *)

(** C8, as amended: [read_header] raises HDUError exactly when the first
    block is short, or is complete and printable with a first record
    that fails the grammar or the test on the first record; any other
    exception it raises is one of a malformed header: a short block after
    the first, a byte out of the printable range in a block, the first
    included, or a record after the first that fails the grammar. *)
Theorem error_classes (fp : file) (primary : bool) :
  (fst (read_header fp primary) = Raise HDUError
   <-> first_fault fp primary = true)
  /\ (forall e, fst (read_header fp primary) = Raise e ->
                e <> HDUError -> malformed e).
Proof.
  pose proof (read_header_first fp primary) as H.
  destruct (fst (read_header fp primary)) as [d|e|];
    destruct (first_fault fp primary) eqn:F; try discriminate.
  - split; [split; discriminate | discriminate].
  - subst e. split; [tauto | congruence].
  - split; [|intros e' [= <-] _; assumption].
    split; [|discriminate]. intros [= ->].
    now apply malformed_not_HDUError in H.
  - split; [split; discriminate | discriminate].
Qed.

(** An empty source, and a header cut after its first block. *)
Lemma error_classes_witness :
  first_fault sample_empty true = true
  /\ fst (read_header sample_empty true) = Raise HDUError
  /\ malformed (TypeError "incomplete block in header").
Proof.
  assert (F : first_fault sample_empty true = true) by reflexivity.
  split; [exact F|].
  split; [exact (proj2 (proj1 (error_classes sample_empty true)) F)|].
  pose (cut := file_of ["SIMPLE  =                    T"] []).
  apply (proj2 (error_classes cut true)).
  - vm_compute. reflexivity.
  - discriminate.
Defined.

(** C8 as stated fails: a complete first block whose first record is not
    SIMPLE = T and which holds a byte 0 makes [read_header] raise the
    TypeError of a malformed header, not HDUError. *)
Lemma unprintable_first_block :
  length (content sample_unprintable) = 2880%nat
  /\ record_fault true (record_at (content sample_unprintable) 0) = true
  /\ fst (read_header sample_unprintable true)
     = Raise (TypeError "invalid characters in header")
  /\ fst (read_header sample_unprintable true) <> Raise HDUError.
Proof.
  split; [reflexivity|]. split; [reflexivity|].
  assert (H : fst (read_header sample_unprintable true)
              = Raise (TypeError "invalid characters in header"))
    by (vm_compute; reflexivity).
  split; [exact H|]. rewrite H. discriminate.
Qed.

(** ** Records without a value indicator (C9) *)

(** C9: for a record of 80 characters whose keyword is none of END,
    CONTINUE, COMMENT, HISTORY and the empty keyword, and whose
    characters 8 and 9 are not ["= "], [parse_keyword] returns the
    keyword, the rest of the record without its trailing spaces as a
    string value, and no comment; read as a record that is not the first
    of its header (or as the first record XTENSION of an extension), it
    is added to the header under a name that was unused. *)
Theorem record_without_indicator (record : str) (primary : bool)
        (keywords : dict) (nrecords : nat) :
  let keyword := Py.rstrip_spaces (Py.slice record 0 8) in
  let text := Py.rstrip_spaces (Py.slice_from record 8) in
  length record = 80%nat ->
  ~ In keyword ["END" : str; "CONTINUE" : str; "COMMENT" : str;
                "HISTORY" : str; "" : str] ->
  Py.slice record 8 10 <> ("= " : str) ->
  parse_keyword record = Ok (Some keyword, Some (VStr text), None)
  /\ (nrecords <> 0%nat \/ (primary = false /\ keyword = ("XTENSION" : str)) ->
      exists name,
        dict_mem keywords name = false
        /\ read_record primary keywords nrecords record
           = Ok (keywords ++ [(name, VStr text)], S nrecords, false)).
Proof.
  intros keyword text _ Hk Hv.
  assert (E : parse_keyword record = Ok (Some keyword, Some (VStr text), None)).
  { unfold parse_keyword. fold keyword. fold text.
    replace (Py.str_eqb keyword "END") with false
      by (symmetry; apply str_eqb_neq; intros ->; apply Hk; simpl; auto).
    replace (Py.str_eqb keyword "CONTINUE") with false
      by (symmetry; apply str_eqb_neq; intros ->; apply Hk; simpl; auto).
    replace (Py.str_eqb (Py.slice record 8 10) "= ") with false
      by (symmetry; now apply str_eqb_neq).
    now rewrite andb_false_r. }
  split; [exact E|].
  intros Hn. unfold read_record. rewrite E. cbn [bind].
  assert (Hc : ((S nrecords =? 1)%nat
                && negb (first_record_ok primary (Some keyword)
                                         (Some (VStr text)))) = false).
  { destruct Hn as [Hn|[-> ->]].
    - replace (S nrecords =? 1)%nat with false
        by (symmetry; apply Nat.eqb_neq; lia).
      reflexivity.
    - apply andb_false_r. }
  rewrite Hc.
  destruct (store_spec keywords keyword (VStr text))
    as (c & _ & _ & Hout & ->).
  exists (synth keyword c). split; [assumption | reflexivity].
Qed.

(** A record of the HIERARCH convention, read as the fourth record. *)
Lemma record_without_indicator_witness :
  length sample_record = 80%nat
  /\ parse_keyword sample_record
     = Ok (Some ("HIERARCH" : str),
           Some (VStr " ESO DET CHIP1 ID = 'CCD-42'"), None)
  /\ exists name,
      dict_mem [("SIMPLE" : str, VBool true)] name = false
      /\ read_record true [("SIMPLE" : str, VBool true)] 3 sample_record
         = Ok ([("SIMPLE" : str, VBool true);
                (name, VStr " ESO DET CHIP1 ID = 'CCD-42'")], 4%nat, false).
Proof.
  assert (Hl : length sample_record = 80%nat) by reflexivity.
  assert (Hk : ~ In (Py.rstrip_spaces (Py.slice sample_record 0 8))
                    ["END" : str; "CONTINUE" : str; "COMMENT" : str;
                     "HISTORY" : str; "" : str]).
  { vm_compute. intros H.
    repeat (destruct H as [H|H]; [discriminate H|]). exact H. }
  assert (Hv : Py.slice sample_record 8 10 <> ("= " : str))
    by (vm_compute; discriminate).
  destruct (record_without_indicator sample_record true
              [("SIMPLE" : str, VBool true)] 3 Hl Hk Hv) as [Hp Hr].
  split; [exact Hl|]. split; [exact Hp|].
  apply Hr. left. discriminate.
Defined.

(** ** Insertion in the header (C10) *)

(** C10: the insertion adds the entry at the end of the dictionary under
    the first name among [keyword], [keyword.1], [keyword.2], ... that is
    not a key, and leaves the entries that are there; so the header read
    holds the value-bearing records before the terminator, one entry for
    each, in their order, under keys that are all different. *)
Theorem insertion_never_overwrites (fp fp' : file) (primary : bool) (d : dict) :
  read_header fp primary = (Ok d, fp') ->
  inserted [] (header_entries fp) d
  /\ NoDup (map fst d)
  /\ map snd d = map snd (header_entries fp)
  /\ length d = length (header_entries fp).
Proof.
  intros H. apply read_header_entries in H.
  apply store_all_inserted in H as (tail & -> & Hins). simpl.
  split; [exact Hins|]. split; [|split].
  - apply (inserted_nodup _ [] _ Hins). constructor.
  - eapply inserted_values, Hins.
  - rewrite <- (length_map snd tail), <- (length_map snd (header_entries fp)).
    f_equal. eapply inserted_values, Hins.
Qed.

(** In [sample_collision] the keyword A.1 comes before the two records of
    the keyword A: the second of them goes under A.2. *)
Lemma insertion_never_overwrites_witness :
  exists fp',
    let d : dict :=
      [("SIMPLE" : str, VBool true);
       ("COMMENT" : str, VStr "hello"); ("COMMENT.1" : str, VStr "world");
       ("A.1" : str, VInt 5); ("A" : str, VInt 1); ("A.2" : str, VInt 2)] in
    read_header sample_collision true = (Ok d, fp')
    /\ NoDup (map fst d)
    /\ length d = length (header_entries sample_collision).
Proof.
  exists (snd (read_header sample_collision true)). intros d.
  assert (H : read_header sample_collision true
              = (Ok d, snd (read_header sample_collision true)))
    by (vm_compute; reflexivity).
  destruct (insertion_never_overwrites _ _ _ _ H) as (_ & Hnd & _ & Hlen).
  split; [exact H|]. split; [exact Hnd | exact Hlen].
Defined.

(* ================================================================= *)
(** * Further properties *)

(** ** read_header: blocks, terminator, first record *)

Lemma until_end_shorter l :
  existsb is_end l = true -> (length (until_end l) < length l)%nat.
Proof.
  induction l as [|r l IH]; simpl; [discriminate|].
  destruct (is_end r); simpl; [lia|]. intros H. apply IH in H. lia.
Qed.

Lemma block_records_length block : length (block_records block) = 36%nat.
Proof. unfold block_records. now rewrite length_map. Qed.

Lemma read_header_loop_pos primary fuel : forall fp keywords n d fp',
  read_header_loop fuel primary fp keywords n = (Ok d, fp') ->
  content fp' = content fp
  /\ pos fp'
     = (pos fp
        + 2880 * (length (until_end (records_loop fuel fp)) / 36 + 1))%nat
  /\ existsb is_end (records_loop fuel fp) = true.
Proof.
  induction fuel as [|fuel IH]; intros fp keywords n d fp' H.
  - discriminate.
  - rewrite read_header_loop_S in H. rewrite records_loop_S.
    destruct (read_block fp) as [[block|] fp1] eqn:Eb.
    + apply read_block_some in Eb as (_ & Hc & Hp & _).
      destruct (negb _); [discriminate|].
      destruct (read_records primary block keywords n block_offsets)
        as [[[k1 n1] e1]| |] eqn:E; try discriminate.
      apply read_records_ok in E as (_ & E2 & _).
      fold (block_records block) in E2.
      rewrite until_end_app, existsb_app, <- E2.
      destruct e1.
      * injection H as <- <-. symmetry in E2.
        pose proof (until_end_shorter _ E2) as Hlt.
        rewrite block_records_length in Hlt.
        rewrite Nat.div_small by exact Hlt.
        repeat split; [assumption | lia].
      * apply IH in H as (Hc' & Hp' & He).
        rewrite length_app, block_records_length.
        replace (36 + length (until_end (records_loop fuel fp1)))%nat
          with (1 * 36 + length (until_end (records_loop fuel fp1)))%nat
          by lia.
        rewrite Nat.div_add_l by discriminate.
        repeat split; [congruence | lia | exact He].
    + destruct (n =? 0)%nat; discriminate.
Qed.

(** X1: a successful [read_header] leaves the file unchanged and moves
    its position past whole blocks of 2880 bytes: the blocks up to the
    one that holds the terminator, and no further. *)
Theorem read_header_consumes_blocks (fp fp' : file) (primary : bool)
        (d : dict) :
  read_header fp primary = (Ok d, fp') ->
  content fp' = content fp
  /\ pos fp'
     = (pos fp
        + 2880 * (length (until_end (header_records fp)) / 36 + 1))%nat.
Proof.
  intros H. apply read_header_loop_pos in H as (Hc & Hp & _). auto.
Qed.

Lemma read_header_consumes_blocks_witness :
  exists d fp',
    read_header sample_twenty true = (Ok d, fp')
    /\ content fp' = content sample_twenty
    /\ pos fp' = 2880%nat.
Proof.
  pose (r := read_header sample_twenty true).
  pose (d := match fst r with Ok h => h | _ => [] end).
  assert (H : read_header sample_twenty true = (Ok d, snd r))
    by (vm_compute; reflexivity).
  exists d, (snd r).
  destruct (read_header_consumes_blocks _ _ _ _ H) as [Hc Hp].
  split; [exact H|]. split; [exact Hc|].
  rewrite Hp. vm_compute. reflexivity.
Defined.

(** X2: a source in which no record of a complete block is the
    terminator is never read as a header: [read_header] raises, HDUError
    or an error of a malformed header. *)
Theorem read_header_needs_end (fp : file) (primary : bool) :
  existsb is_end (header_records fp) = false ->
  exists e, fst (read_header fp primary) = Raise e
            /\ (e = HDUError \/ malformed e).
Proof.
  intros Hend.
  pose proof (read_header_first fp primary) as H.
  pose proof (read_header_total fp primary) as Ht.
  destruct (read_header fp primary) as [[d|e|] fp'] eqn:E; simpl in *.
  - apply read_header_loop_pos in E as (_ & _ & He).
    unfold header_records in Hend. congruence.
  - exists e. split; [reflexivity|].
    destruct (first_fault fp primary); auto.
  - congruence.
Qed.

Lemma read_header_needs_end_witness :
  existsb is_end (header_records (file_of ["SIMPLE  =                    T"] []))
  = false
  /\ exists e,
      fst (read_header (file_of ["SIMPLE  =                    T"] []) true)
      = Raise e
      /\ (e = HDUError \/ malformed e).
Proof.
  assert (H : existsb is_end
                (header_records (file_of ["SIMPLE  =                    T"] []))
              = false) by (vm_compute; reflexivity).
  split; [exact H|].
  exact (read_header_needs_end _ true H).
Defined.

Lemma readinto_bounds fp :
  let fp' := snd (read_block fp) in
  content fp' = content fp
  /\ (pos fp <= pos fp')%nat
  /\ (pos fp' <= Nat.max (pos fp) (length (content fp)))%nat.
Proof.
  unfold read_block, readinto. cbn [snd content pos].
  split; [reflexivity|].
  rewrite length_firstn, length_skipn. lia.
Qed.

Lemma read_header_loop_bounds primary fuel : forall fp keywords n,
  let fp' := snd (read_header_loop fuel primary fp keywords n) in
  content fp' = content fp
  /\ (pos fp <= pos fp')%nat
  /\ (pos fp' <= Nat.max (pos fp) (length (content fp)))%nat.
Proof.
  induction fuel as [|fuel IH]; intros fp keywords n.
  - simpl. repeat split; lia.
  - rewrite read_header_loop_S.
    pose proof (readinto_bounds fp) as Hb.
    destruct (read_block fp) as [[block|] fp1]; cbn [snd] in Hb.
    + destruct Hb as (Hc & Hp1 & Hp2).
      destruct (negb _); [cbn [snd]; auto|].
      destruct (read_records primary block keywords n block_offsets)
        as [[[k1 n1] e1]| |]; [|cbn [snd]; auto..].
      destruct e1; [cbn [snd]; auto|].
      specialize (IH fp1 k1 n1). cbv zeta in IH.
      destruct IH as (Hc' & Hp1' & Hp2'). cbv zeta.
      rewrite Hc in *. repeat split; [congruence | lia | lia].
    + destruct (n =? 0)%nat; cbn [snd]; auto.
Qed.

(** X3: [read_header] ends on every file, with a header or an exception,
    within the fuel its definition gives the loop; it leaves the bytes of
    the file as they are and its position between where it was and the
    end of the file. *)
Theorem read_header_terminates (fp : file) (primary : bool) :
  fst (read_header fp primary) <> OutOfFuel
  /\ content (snd (read_header fp primary)) = content fp
  /\ (pos fp <= pos (snd (read_header fp primary)))%nat
  /\ (pos (snd (read_header fp primary))
      <= Nat.max (pos fp) (length (content fp)))%nat.
Proof.
  split; [apply read_header_loop_fuel; lia|].
  apply (read_header_loop_bounds primary _ fp [] 0%nat).
Qed.

Lemma first_record_ok_inv primary k v :
  first_record_ok primary k v = true ->
  if primary then k = Some ("SIMPLE" : str) /\ v = Some (VBool true)
  else k = Some ("XTENSION" : str) /\ exists s, v = Some (VStr s).
Proof.
  unfold first_record_ok. destruct primary.
  - destruct k as [k|]; [|discriminate].
    destruct v as [[s|[|]|i|f|re im]|]; try discriminate.
    intros H. apply str_eqb_eq in H. subst. auto.
  - destruct k as [k|]; [|discriminate].
    destruct v as [[s|b|i|f|re im]|]; try discriminate.
    intros H. apply str_eqb_eq in H. subst. eauto.
Qed.

Lemma store_empty K v : store [] K v = Ok [(K, v)].
Proof. reflexivity. Qed.

Lemma header_entries_first fp primary d fp' :
  read_header fp primary = (Ok d, fp') ->
  exists k v es,
    first_record_ok primary (Some k) (Some v) = true
    /\ header_entries fp = (k, v) :: es.
Proof.
  intros H.
  pose proof (read_header_first fp primary) as Hf. rewrite H in Hf.
  cbn [fst] in Hf. unfold first_fault in Hf.
  unfold read_header in H. rewrite read_header_loop_S in H.
  unfold header_entries, header_records. rewrite records_loop_S.
  destruct (read_block fp) as [[block|] fp1]; [|discriminate].
  destruct (block_printable block); [|discriminate].
  rewrite andb_true_l in Hf. unfold record_fault in Hf.
  unfold block_records. rewrite block_offsets_eq. cbn [map app].
  pose proof (parse_keyword_raises (record_at block 0)) as Hr.
  destruct (parse_keyword (record_at block 0)) as [[[k v] c]|e|] eqn:Ep;
    [|destruct Hr as [ve ->]; discriminate | contradiction].
  apply negb_false_iff in Hf.
  assert (Hkv : exists k' v', k = Some k' /\ v = Some v').
  { apply first_record_ok_inv in Hf. destruct primary.
    - destruct Hf as [-> ->]. eauto.
    - destruct Hf as [-> [s ->]]. eauto. }
  destruct Hkv as (k' & v' & -> & ->).
  assert (Hend : is_end (record_at block 0) = false).
  { destruct (is_end (record_at block 0)) eqn:Ee; [|reflexivity].
    rewrite parse_keyword_end in Ep by assumption. discriminate. }
  cbn [until_end]. rewrite Hend. unfold entries. cbn [flat_map].
  unfold entry at 1. rewrite Ep. cbn [app].
  eauto.
Qed.

Lemma read_header_head fp fp' primary d :
  read_header fp primary = (Ok d, fp') ->
  if primary then primary_header d else extension_header d.
Proof.
  intros H.
  destruct (header_entries_first _ _ _ _ H) as (k & v & es & Hok & He).
  apply read_header_entries in H. rewrite He in H.
  cbn [store_all] in H. rewrite store_empty in H. cbn [bind] in H.
  apply store_all_inserted in H as (tail & -> & _).
  apply first_record_ok_inv in Hok. destruct primary.
  - destruct Hok as [[= ->] [= ->]]. cbn [app]. now exists tail.
  - destruct Hok as [[= ->] [s [= ->]]]. cbn [app]. now exists s, tail.
Qed.

(** X4: the header returned by [read_header] begins with the entry of
    its first record: SIMPLE with the boolean true for a primary header,
    XTENSION with a string for an extension. *)
Theorem read_header_first_entry (fp fp' : file) (primary : bool) (d : dict) :
  read_header fp primary = (Ok d, fp') ->
  if primary then
    exists rest, d = ("SIMPLE" : str, VBool true) :: rest
  else
    exists s rest, d = ("XTENSION" : str, VStr s) :: rest.
Proof. exact (read_header_head fp fp' primary d). Qed.

Lemma read_header_first_entry_witness :
  exists d fp' rest,
    read_header sample_repeated true = (Ok d, fp')
    /\ d = ("SIMPLE" : str, VBool true) :: rest.
Proof.
  pose (r := read_header sample_repeated true).
  pose (d := match fst r with Ok h => h | _ => [] end).
  assert (H : read_header sample_repeated true = (Ok d, snd r))
    by (vm_compute; reflexivity).
  destruct (read_header_first_entry _ _ true _ H) as [rest Hd].
  exists d, (snd r), rest. split; [exact H | exact Hd].
Defined.

(** X5: the header depends on the records before the terminator only:
    two sources that agree on them give the same header, whatever
    follows the terminator in its block and after it. *)
Theorem records_after_end_ignored (fp1 fp1' fp2 fp2' : file)
        (primary1 primary2 : bool) (d1 d2 : dict) :
  read_header fp1 primary1 = (Ok d1, fp1') ->
  read_header fp2 primary2 = (Ok d2, fp2') ->
  until_end (header_records fp1) = until_end (header_records fp2) ->
  d1 = d2.
Proof.
  intros H1 H2 E. apply read_header_entries in H1, H2.
  unfold header_entries in *. rewrite E in H1. congruence.
Qed.

Lemma records_after_end_ignored_witness :
  exists d1 d2 fp1' fp2',
    read_header sample_repeated true = (Ok d1, fp1')
    /\ read_header sample_padded true = (Ok d2, fp2')
    /\ content sample_repeated <> content sample_padded
    /\ d1 = d2.
Proof.
  pose (r1 := read_header sample_repeated true).
  pose (r2 := read_header sample_padded true).
  pose (d1 := match fst r1 with Ok h => h | _ => [] end).
  pose (d2 := match fst r2 with Ok h => h | _ => [] end).
  assert (H1 : read_header sample_repeated true = (Ok d1, snd r1))
    by (vm_compute; reflexivity).
  assert (H2 : read_header sample_padded true = (Ok d2, snd r2))
    by (vm_compute; reflexivity).
  assert (E : until_end (header_records sample_repeated)
              = until_end (header_records sample_padded))
    by (vm_compute; reflexivity).
  exists d1, d2, (snd r1), (snd r2).
  split; [exact H1|]. split; [exact H2|].
  split; [vm_compute; intros Hc; apply (f_equal (@length byte)) in Hc;
          vm_compute in Hc; discriminate Hc|].
  exact (records_after_end_ignored _ _ _ _ _ _ _ _ H1 H2 E).
Defined.

(** ** Looking up what read_header stored *)

Lemma synth_eqb_no_dot K K' a b :
  no_dot K -> no_dot K' ->
  Py.str_eqb (synth K a) (synth K' b) = Py.str_eqb K K' && (a =? b)%nat.
Proof.
  intros HK HK'.
  destruct (Py.str_eqb (synth K a) (synth K' b)) eqn:E.
  - apply str_eqb_eq, synth_no_dot_inj in E as [-> ->]; auto.
    now rewrite str_eqb_refl, Nat.eqb_refl.
  - symmetry. apply andb_false_iff.
    destruct (Py.str_eqb K K') eqn:EK; [right | now left].
    apply str_eqb_eq in EK. subst K'. apply Nat.eqb_neq. intros ->.
    apply str_eqb_neq in E. now apply E.
Qed.

Lemma dict_get_label es : forall seen K k,
  Forall no_dot (map fst es) -> no_dot K ->
  dict_get (label seen es) (synth K k)
  = if (k <? occurrences K seen)%nat then None
    else occurrence es K (k - occurrences K seen).
Proof.
  induction es as [|[K' v] es IH]; intros seen K k Hes HK.
  - simpl. now destruct (k <? occurrences K seen)%nat.
  - simpl in Hes. inversion Hes as [|? ? HK' Hes']; subst.
    cbn [label dict_get occurrence].
    rewrite synth_eqb_no_dot by assumption.
    rewrite (IH (seen ++ [K']) K k Hes' HK), occurrences_app.
    destruct (Py.str_eqb K' K) eqn:EK.
    + apply str_eqb_eq in EK. subst K'. cbn [andb].
      set (o := occurrences K seen).
      destruct (Nat.eqb_spec o k) as [<-|Hne].
      * rewrite Nat.ltb_irrefl, Nat.sub_diag. reflexivity.
      * destruct (Nat.ltb_spec k o) as [Hlt|Hge].
        -- replace (k <? o + 1)%nat with true
             by (symmetry; apply Nat.ltb_lt; lia). reflexivity.
        -- replace (k <? o + 1)%nat with false
             by (symmetry; apply Nat.ltb_ge; lia).
           replace (k - o)%nat with (S (k - (o + 1))) by lia. reflexivity.
    + cbn [andb]. now rewrite Nat.add_0_r.
Qed.

(** X6: when no keyword of a value-bearing record holds a dot, looking up
    a keyword [K] in the header read gives the value of its first record,
    and looking up [K.k] gives the value of its [k]-th repetition, or
    nothing when the keyword has fewer records. *)
Theorem lookup_by_occurrence (fp fp' : file) (primary : bool) (d : dict)
        (K : str) (k : nat) :
  read_header fp primary = (Ok d, fp') ->
  Forall no_dot (map fst (header_entries fp)) ->
  no_dot K ->
  dict_get d (synth K k) = occurrence (header_entries fp) K k.
Proof.
  intros H Hdots HK. apply read_header_entries in H.
  rewrite (store_all_label (header_entries fp) [] []) in H; auto.
  - injection H as <-. cbn [app].
    rewrite dict_get_label by assumption. cbn. now rewrite Nat.sub_0_r.
  - intros name. simpl. split; [tauto|]. intros (K' & j & Hj & _). lia.
Qed.

Lemma lookup_by_occurrence_witness :
  exists d fp',
    read_header sample_repeated true = (Ok d, fp')
    /\ dict_get d "FOO.2" = Some (VInt 3)
    /\ dict_get d "FOO.3" = None.
Proof.
  pose (r := read_header sample_repeated true).
  pose (d := match fst r with Ok h => h | _ => [] end).
  assert (H : read_header sample_repeated true = (Ok d, snd r))
    by (vm_compute; reflexivity).
  assert (Hdots : Forall no_dot (map fst (header_entries sample_repeated))).
  { vm_compute. repeat constructor; intros Hin;
      repeat (destruct Hin as [Hin|Hin]; [discriminate Hin|]); exact Hin. }
  assert (HK : no_dot ("FOO" : str)).
  { intros Hin. repeat (destruct Hin as [Hin|Hin]; [discriminate Hin|]).
    exact Hin. }
  exists d, (snd r). split; [exact H|]. split.
  - change (dict_get d (synth "FOO" 2) = Some (VInt 3)).
    rewrite (lookup_by_occurrence _ _ _ _ "FOO" 2 H Hdots HK).
    vm_compute. reflexivity.
  - change (dict_get d (synth "FOO" 3) = None).
    rewrite (lookup_by_occurrence _ _ _ _ "FOO" 3 H Hdots HK).
    vm_compute. reflexivity.
Defined.

(** ** The keys of a header *)

Lemma rstrip_with_length p s : (length (Py.rstrip_with p s) <= length s)%nat.
Proof.
  induction s as [|c s IH]; simpl; [lia|].
  destruct (Py.rstrip_with p s); [destruct (p c); simpl; lia | simpl in *; lia].
Qed.

Lemma rstrip_with_idem p s :
  Py.rstrip_with p (Py.rstrip_with p s) = Py.rstrip_with p s.
Proof.
  induction s as [|c s IH]; simpl; [reflexivity|].
  destruct (Py.rstrip_with p s) as [|x t] eqn:E.
  - destruct (p c) eqn:Ep; simpl; [reflexivity | now rewrite Ep].
  - simpl in *. rewrite IH. reflexivity.
Qed.

Lemma entry_keyword r k v :
  In (k, v) (entry r) -> keyword_shape k.
Proof.
  unfold entry. destruct (parse_keyword r) as [[[k' v'] c]|e|] eqn:E;
    try contradiction.
  destruct k' as [k'|]; [|contradiction].
  destruct v' as [v'|]; [|contradiction].
  intros [[= -> ->]|[]].
  destruct (is_end r) eqn:Ee.
  - rewrite parse_keyword_end in E by assumption. discriminate.
  - apply (parse_keyword_not_end _ _ _ _ Ee) in E. injection E as ->.
    split.
    + unfold Py.rstrip_spaces. etransitivity; [apply rstrip_with_length|].
      unfold Py.slice. rewrite length_firstn. lia.
    + apply rstrip_with_idem.
Qed.

Lemma inserted_names (P : str -> Prop) es : forall keywords tail,
  inserted keywords es tail ->
  Forall P (map fst es) ->
  Forall (fun key => exists K c, key = synth K c /\ P K) (map fst tail).
Proof.
  induction es as [|[K v] es IH]; intros keywords [|[name w] tail]; simpl;
    try tauto.
  - constructor.
  - intros (_ & (c & -> & _) & H) HP. inversion HP; subst.
    constructor; eauto.
Qed.

(** X7: every key of a header read is a keyword of at most eight
    characters without a space at its end, or such a keyword followed by
    a dot and a number. *)
Theorem header_keys_shape (fp fp' : file) (primary : bool) (d : dict) :
  read_header fp primary = (Ok d, fp') ->
  Forall (fun key => exists K c, key = synth K c /\ keyword_shape K)
         (map fst d).
Proof.
  intros H. apply read_header_entries in H.
  apply store_all_inserted in H as (tail & -> & Hins). cbn [app].
  apply (inserted_names keyword_shape _ _ _ Hins).
  apply Forall_forall. intros K HK.
  apply in_map_iff in HK as ([K' v] & <- & Hin).
  unfold header_entries, entries in Hin.
  apply in_flat_map in Hin as (r & _ & Hin).
  exact (entry_keyword _ _ _ Hin).
Qed.

Lemma header_keys_shape_witness :
  exists d fp',
    read_header sample_collision true = (Ok d, fp')
    /\ Forall (fun key => exists K c, key = synth K c /\ keyword_shape K)
              (map fst d).
Proof.
  pose (r := read_header sample_collision true).
  pose (d := match fst r with Ok h => h | _ => [] end).
  assert (H : read_header sample_collision true = (Ok d, snd r))
    by (vm_compute; reflexivity).
  exists d, (snd r). split; [exact H|].
  exact (header_keys_shape _ _ _ _ H).
Defined.

(** ** The grammar of a value clause *)

(** X8: [parse_keyword_value] returns, or raises one of two ValueErrors:
    the one of a text outside the grammar, or the one of [float] on a
    part of a complex number written with the exponent letter D. *)
Theorem parse_keyword_value_errors (expr : str) :
  (exists r, parse_keyword_value expr = Ok r)
  \/ parse_keyword_value expr = Raise (ValueError InvalidKeywordValue)
  \/ exists lit,
      In "D"%char lit
      /\ parse_keyword_value expr = Raise (ValueError (FloatConversion lit)).
Proof.
  assert (Hf : forall lit,
            (exists r, py_float lit = Ok r)
            \/ (In "D"%char lit
                /\ py_float lit = Raise (ValueError (FloatConversion lit)))).
  { intros lit. unfold py_float.
    destruct (existsb (Ascii.eqb "D") lit) eqn:E; [right | left; eauto].
    split; [|reflexivity].
    apply existsb_exists in E as (c & Hc & Ec).
    apply Ascii.eqb_eq in Ec. now subst c. }
  unfold parse_keyword_value, fullmatch.
  destruct (run keyword_value_regex expr [] at_end) as [m|] eqn:E;
    [|auto].
  apply run_sound in E as (s' & m' & Hm & He).
  unfold at_end in He. destruct s'; [|discriminate]. injection He as ->.
  destruct (group m "value"); [|left; eexists; reflexivity].
  destruct (group m "string"); [left; eexists; reflexivity|].
  destruct (group m "bool"); [left; eexists; reflexivity|].
  destruct (group m "int"); [left; eexists; reflexivity|].
  destruct (group m "float") as [f|].
  { destruct (Hf (Py.replace_char "D" "E" f)) as [[r ->]|[Hin ->]];
      [left; eexists; reflexivity | right; right; eexists; split; [eassumption | reflexivity]]. }
  destruct (group m "complex") as [x|] eqn:Ex; [|left; eexists; reflexivity].
  destruct (PARSE_complex _ _ _ Hm Ex) as (re & im & -> & ->).
  destruct (Hf re) as [[r ->]|[Hin ->]]; [|right; right; eexists; split; [eassumption | reflexivity]].
  destruct (Hf im) as [[r' ->]|[Hin ->]]; [left; eexists; reflexivity | right; right; eexists; split; [eassumption | reflexivity]].
Qed.

(** X9: a text with a character outside the printable range [ -~] is
    outside the grammar: [parse_keyword_value] raises its ValueError. *)
Theorem unprintable_value_rejected (expr : str) :
  Exists (fun c => printable_char c = false) expr ->
  parse_keyword_value expr = Raise (ValueError InvalidKeywordValue).
Proof.
  intros Hex. unfold parse_keyword_value, fullmatch.
  destruct (run keyword_value_regex expr [] at_end) as [m|] eqn:E;
    [exfalso | reflexivity].
  apply run_sound in E as (s' & m' & Hm & He).
  unfold at_end in He. destruct s'; [|discriminate].
  destruct (matches_prefix _ _ _ _ _ _ classes_printable_PARSE Hm)
    as (pre & -> & Hpre).
  rewrite app_nil_r in Hex. apply Exists_exists in Hex as (c & Hc & Hn).
  rewrite Forall_forall in Hpre. specialize (Hpre c Hc). congruence.
Qed.

Lemma unprintable_value_rejected_witness :
  Exists (fun c => printable_char c = false) ("'a" ++ ["009"%char] ++ "b'")
  /\ parse_keyword_value ("'a" ++ ["009"%char] ++ "b'")
     = Raise (ValueError InvalidKeywordValue).
Proof.
  assert (H : Exists (fun c => printable_char c = false)
                     ("'a" ++ ["009"%char] ++ "b'")).
  { cbn [list_ascii_of_string app]. do 2 apply Exists_cons_tl.
    apply Exists_cons_hd. reflexivity. }
  split; [exact H|]. exact (unprintable_value_rejected _ H).
Defined.

Lemma star_chr_app p pre : forall s m k R,
  Forall (fun c => p c = true) pre ->
  run (Star (Chr p)) s m k = Some R ->
  run (Star (Chr p)) (pre ++ s) m k = Some R.
Proof.
  induction pre as [|c pre IH]; intros s m k R Hpre H; [exact H|].
  inversion Hpre as [|? ? Hc Hpre']; subst.
  cbn [app]. rewrite star_chr_cons, Hc. now rewrite (IH s m k R).
Qed.

Lemma star_chr_all p s m k R :
  Forall (fun c => p c = true) s ->
  k [] m = Some R ->
  run (Star (Chr p)) s m k = Some R.
Proof.
  intros Hs Hk. rewrite <- (app_nil_r s). now apply star_chr_app.
Qed.

Lemma spaces_are_spaces n :
  Forall (fun c => Ascii.eqb " " c = true) (repeat " "%char n).
Proof. induction n; simpl; constructor; auto. Qed.

(** X10: a value clause made of spaces only, the empty one included, has
    no value and no comment. *)
Theorem blank_value (n : nat) :
  parse_keyword_value (repeat " "%char n) = Ok (None, None).
Proof.
  unfold parse_keyword_value, fullmatch, keyword_value_regex, PARSE.
  assert (E : run (spaces >> Opt VALUE >> spaces >> Opt COMMENT)
                  (repeat " "%char n) [] at_end = Some []).
  { change (run (spaces >> ?b) ?s ?m ?k)
      with (run spaces s m (fun s' m' => run b s' m' k)).
    unfold spaces at 1, Lit.
    apply star_chr_all; [apply spaces_are_spaces | reflexivity]. }
  rewrite E. reflexivity.
Qed.

(** X11: a value clause made of spaces, a slash and printable text has no
    value, and the text without the spaces around it as its comment. *)
Theorem comment_only_value (n : nat) (text : str) :
  Forall (fun c => printable_char c = true) text ->
  parse_keyword_value (repeat " "%char n ++ "/"%char :: text)
  = Ok (None, Some (Py.strip text)).
Proof.
  intros Ht.
  unfold parse_keyword_value, fullmatch, keyword_value_regex, PARSE.
  assert (E : run (spaces >> Opt VALUE >> spaces >> Opt COMMENT)
                  (repeat " "%char n ++ "/"%char :: text) [] at_end
              = Some [("comment" : str, text)]).
  { change (run (spaces >> ?b) ?s ?m ?k)
      with (run spaces s m (fun s' m' => run b s' m' k)).
    unfold spaces at 1, Lit.
    apply star_chr_app; [apply spaces_are_spaces|].
    rewrite star_chr_cons. change (Ascii.eqb " " "/") with false. cbv iota.
    assert (Ev : forall k, run VALUE ("/"%char :: text) [] k = None)
      by (intros k; reflexivity).
    change (run (Opt VALUE >> ?b) ?s ?m ?k)
      with (match run VALUE s m (fun s' m' => run b s' m' k) with
            | Some x => Some x
            | None => run b s m k
            end).
    rewrite Ev.
    change (run (spaces >> ?b) ?s ?m ?k)
      with (run spaces s m (fun s' m' => run b s' m' k)).
    unfold spaces, Lit. rewrite star_chr_cons.
    change (Ascii.eqb " " "/") with false. cbv iota.
    unfold Opt, COMMENT.
    change (run ((Lit "/" >> Group ?g ?r) </> Eps)
                ("/"%char :: text) ?m ?k)
      with (match run r text m
                      (fun s' m' =>
                         k s' ((g, firstn (length text - length s') text)
                                 :: m')) with
            | Some x => Some x
            | None => k ("/"%char :: text) m
            end).
    unfold printable.
    rewrite (star_chr_all _ text _ _ [("comment" : str, text)]);
      [reflexivity | exact Ht |].
    cbn [at_end length]. now rewrite Nat.sub_0_r, firstn_all. }
  rewrite E. reflexivity.
Qed.

Lemma comment_only_value_witness :
  Forall (fun c => printable_char c = true) (" the comment  " : str)
  /\ parse_keyword_value ("   / the comment  " : str)
     = Ok (None, Some ("the comment" : str)).
Proof.
  assert (H : Forall (fun c => printable_char c = true)
                     (" the comment  " : str)) by (repeat constructor).
  split; [exact H|]. exact (comment_only_value 3 _ H).
Defined.

(** ** Integers written in decimal *)

Lemma digits_are_digits d :
  Forall (fun c => is_digit c = true) (Py.digits_of_uint d).
Proof. induction d; simpl; constructor; auto. Qed.

Lemma int_of_digits_acc d : forall acc,
  fold_left (fun a c => 10 * a + Py.digit_val c) (Py.digits_of_uint d)
            (Z.of_nat acc)
  = Z.of_nat (Nat.of_uint_acc d acc).
Proof.
  induction d; intros acc; cbn [Py.digits_of_uint fold_left Nat.of_uint_acc];
    [reflexivity|..];
    rewrite <- IHd; f_equal; rewrite Nat.tail_mul_spec;
    match goal with
    | |- context [Py.digit_val ?c] =>
        let v := eval vm_compute in (Py.digit_val c) in
        change (Py.digit_val c) with v
    end; lia.
Qed.

Lemma int_of_digits_str_of_nat n :
  Py.int_of_digits (Py.str_of_nat n) = Z.of_nat n.
Proof.
  unfold Py.int_of_digits, Py.str_of_nat.
  change 0 with (Z.of_nat 0). rewrite int_of_digits_acc.
  fold (Nat.of_uint (Nat.to_uint n)). now rewrite Unsigned.of_to.
Qed.

Lemma str_of_nat_cons n :
  exists c ds, Py.str_of_nat n = c :: ds
               /\ is_digit c = true
               /\ Forall (fun c => is_digit c = true) ds.
Proof.
  pose proof (digits_are_digits (Nat.to_uint n)) as Hd.
  fold (Py.str_of_nat n) in Hd.
  destruct (Py.str_of_nat n) as [|c ds] eqn:E.
  - exfalso. unfold Py.str_of_nat in E.
    assert (Hn : Nat.to_uint n = Decimal.Nil)
      by (apply digits_of_uint_inj; exact E).
    pose proof (Unsigned.of_to n) as Ho. rewrite Hn in Ho. cbn in Ho.
    subst n. discriminate Hn.
  - inversion Hd; subst. eauto.
Qed.

Lemma digit_classes c :
  is_digit c = true ->
  Ascii.eqb " " c = false /\ Ascii.eqb "'" c = false
  /\ Py.one_of "TF" c = false /\ Py.one_of "-+" c = false.
Proof.
  destruct c as [[] [] [] [] [] [] [] []]; vm_compute; intros H;
    try discriminate H; auto.
Qed.

Lemma int_of_str_digit c ds :
  is_digit c = true -> Py.int_of_str (c :: ds) = Py.int_of_digits (c :: ds).
Proof.
  destruct c as [[] [] [] [] [] [] [] []]; vm_compute is_digit; intros H;
    try discriminate H; reflexivity.
Qed.

Lemma run_cat a b s m k :
  run (a >> b) s m k = run a s m (fun s' m' => run b s' m' k).
Proof. reflexivity. Qed.

Lemma run_alt a b s m k :
  run (a </> b) s m k
  = match run a s m k with Some x => Some x | None => run b s m k end.
Proof. reflexivity. Qed.

Lemma run_group g r s m k :
  run (Group g r) s m k
  = run r s m (fun s' m' => k s' ((g, firstn (length s - length s') s) :: m')).
Proof. reflexivity. Qed.

Lemma run_chr_cons p c s m k :
  run (Chr p) (c :: s) m k = if p c then k s m else None.
Proof. reflexivity. Qed.

Lemma run_digits c ds m k R :
  is_digit c = true -> Forall (fun c => is_digit c = true) ds ->
  k [] m = Some R ->
  run (Plus digit) (c :: ds) m k = Some R.
Proof.
  intros Hc Hds Hk. unfold Plus, digit.
  rewrite run_cat, run_chr_cons. fold (is_digit c). rewrite Hc.
  apply star_chr_all; assumption.
Qed.

Lemma run_INT s m k R :
  int_text s -> k [] m = Some R -> run INT s m k = Some R.
Proof.
  intros (c & ds & Hs & Hc & Hds) Hk. unfold INT.
  rewrite run_cat. unfold Opt. rewrite run_alt. unfold sign.
  destruct Hs as [-> | ->].
  - rewrite run_chr_cons.
    destruct (digit_classes c Hc) as (_ & _ & _ & ->).
    cbn [run]. now apply run_digits.
  - rewrite run_chr_cons. change (Py.one_of "-+" "-") with true. cbv iota.
    now rewrite (run_digits c ds m k R).
Qed.

Lemma int_text_first s :
  int_text s ->
  exists x t, s = x :: t
              /\ Ascii.eqb " " x = false /\ Ascii.eqb "'" x = false
              /\ Py.one_of "TF" x = false.
Proof.
  intros (c & ds & [-> | ->] & Hc & _).
  - destruct (digit_classes c Hc) as (H1 & H2 & H3 & _). eauto 7.
  - exists "-"%char, (c :: ds). repeat split.
Qed.

Lemma fullmatch_int_text s :
  int_text s ->
  fullmatch keyword_value_regex s
  = Some [("value" : str, s); ("int" : str, s)].
Proof.
  intros Hs. destruct (int_text_first s Hs) as (x & t & E & H1 & H2 & H3).
  unfold fullmatch, keyword_value_regex, PARSE.
  rewrite run_cat. unfold spaces at 1, Lit at 1.
  rewrite E at 1. rewrite star_chr_cons, H1. rewrite <- E.
  rewrite run_cat. unfold Opt at 1. rewrite run_alt.
  assert (Ev : forall k R,
             k [] [("value" : str, s); ("int" : str, s)] = Some R ->
             run VALUE s [] k = Some R).
  { intros k R Hk. unfold VALUE. rewrite run_group, run_alt.
    assert (E1 : forall k', run (Group "string" STR) s [] k' = None).
    { intros k'. rewrite run_group. unfold STR, Plus. rewrite !run_cat.
      unfold Lit. rewrite E at 1. now rewrite run_chr_cons, H2. }
    rewrite E1, run_alt.
    assert (E2 : forall k', run (Group "bool" BOOL) s [] k' = None).
    { intros k'. rewrite run_group. unfold BOOL.
      rewrite E at 1. now rewrite run_chr_cons, H3. }
    rewrite E2, run_alt, run_group.
    rewrite (run_INT s [] _ R Hs); [reflexivity|].
    cbn [length]. now rewrite !Nat.sub_0_r, !firstn_all. }
  rewrite (Ev _ [("value" : str, s); ("int" : str, s)]); reflexivity.
Qed.

(** X12: the decimal text of an integer, as [str] writes it, is parsed to
    that integer. *)
Theorem int_round_trip (z : Z) :
  parse_keyword_value (str_of_int z) = Ok (Some (VInt z), None).
Proof.
  assert (Ht : int_text (str_of_int z)).
  { unfold str_of_int. destruct (z <? 0).
    - destruct (str_of_nat_cons (Z.to_nat (- z))) as (c & ds & -> & Hc & Hds).
      exists c, ds. auto.
    - destruct (str_of_nat_cons (Z.to_nat z)) as (c & ds & -> & Hc & Hds).
      exists c, ds. auto. }
  unfold parse_keyword_value. rewrite (fullmatch_int_text _ Ht).
  cbn [group Py.str_eqb list_ascii_of_string Ascii.eqb Bool.eqb andb bind].
  do 3 f_equal. f_equal.
  unfold str_of_int. destruct (Z.ltb_spec z 0) as [Hneg|Hpos].
  - cbn [Py.int_of_str]. rewrite int_of_digits_str_of_nat. lia.
  - destruct (str_of_nat_cons (Z.to_nat z)) as (c & ds & E & Hc & _).
    rewrite E, int_of_str_digit by assumption.
    rewrite <- E, int_of_digits_str_of_nat. lia.
Qed.

(** ** The axes of a header *)

Lemma axes_ok header n : forall i shape,
  axes header i n = Ok shape ->
  length shape = n
  /\ forall k, (k < n)%nat ->
       dict_get header ("NAXIS" ++ Py.str_of_nat (i + k + 1))
       = nth_error shape k.
Proof.
  induction n as [|n IH]; intros i shape H; cbn [axes] in H.
  - injection H as <-. split; [reflexivity | intros k Hk; lia].
  - unfold dict_item in H.
    destruct (dict_get header ("NAXIS" ++ Py.str_of_nat (i + 1))) as [v|] eqn:E;
      [|discriminate]. cbn [bind] in H.
    destruct (axes header (S i) n) as [rest| |] eqn:Er; try discriminate.
    injection H as <-. apply IH in Er as [Hl Hk].
    split; [simpl; now rewrite Hl|].
    intros [|k] Hlt.
    + rewrite Nat.add_0_r. exact E.
    + cbn [nth_error]. rewrite <- Hk by lia. do 3 f_equal. lia.
Qed.

Lemma axes_missing header n : forall i k,
  (k < n)%nat ->
  dict_get header ("NAXIS" ++ Py.str_of_nat (i + k + 1)) = None ->
  (forall j, (j < k)%nat ->
     dict_get header ("NAXIS" ++ Py.str_of_nat (i + j + 1)) <> None) ->
  axes header i n = Raise (KeyError ("NAXIS" ++ Py.str_of_nat (i + k + 1))).
Proof.
  induction n as [|n IH]; intros i k Hk Hnone Hbefore; [lia|].
  cbn [axes]. unfold dict_item. destruct k as [|k].
  - rewrite Nat.add_0_r in *. now rewrite Hnone.
  - specialize (Hbefore 0%nat ltac:(lia)) as H0. rewrite Nat.add_0_r in H0.
    destruct (dict_get header ("NAXIS" ++ Py.str_of_nat (i + 1))) as [v|];
      [|contradiction]. cbn [bind].
    rewrite (IH (S i) k).
    + cbn [bind]. do 4 f_equal. lia.
    + lia.
    + rewrite <- Hnone. do 3 f_equal. lia.
    + intros j Hj. specialize (Hbefore (S j) ltac:(lia)).
      replace (S i + j + 1)%nat with (i + S j + 1)%nat by lia. exact Hbefore.
Qed.

(** X13: when [shape_from_header] returns a shape, NAXIS is an integer
    [n] above zero (or the boolean true) and the shape lists the values
    of NAXIS1 to NAXISn in that order. *)
Theorem shape_lists_axes (header : dict) (shape : list value) :
  shape_from_header header = Ok (Some shape) ->
  exists naxis n,
    dict_get header "NAXIS" = Some naxis
    /\ as_int naxis = Some n /\ 0 < n
    /\ length shape = Z.to_nat n
    /\ forall k, (k < Z.to_nat n)%nat ->
         dict_get header ("NAXIS" ++ Py.str_of_nat (k + 1))
         = nth_error shape k.
Proof.
  unfold shape_from_header, dict_item.
  destruct (dict_get header "NAXIS") as [naxis|]; [|discriminate].
  cbn [bind]. intros H.
  assert (Hn : exists n, as_int naxis = Some n).
  { destruct naxis; cbn [as_int]; eauto.
    - discriminate.
    - destruct (float_gt0 lit); discriminate.
    - discriminate. }
  destruct Hn as [n Hn]. exists naxis, n.
  destruct naxis as [s|b|i|f|re im]; try discriminate Hn;
    rewrite Hn in H;
    (destruct (Z.gtb_spec n 0) as [Hpos|Hle]; [|discriminate]);
    (destruct (axes header 0 (Z.to_nat n)) as [sh| |] eqn:E;
     try discriminate);
    injection H as <-; apply axes_ok in E as [Hl Hk];
    repeat split; auto; lia.
Qed.

Lemma shape_lists_axes_witness :
  shape_from_header header_groups = Ok (Some [VInt 2880])
  /\ exists naxis n,
      dict_get header_groups "NAXIS" = Some naxis
      /\ as_int naxis = Some n /\ 0 < n
      /\ length [VInt 2880] = Z.to_nat n.
Proof.
  assert (H : shape_from_header header_groups = Ok (Some [VInt 2880]))
    by reflexivity.
  split; [exact H|].
  destruct (shape_lists_axes _ _ H) as (naxis & n & H1 & H2 & H3 & H4 & _).
  exists naxis, n. auto.
Defined.

(** X14: when NAXIS is an integer [n] above zero and NAXISk is the first
    of NAXIS1 to NAXISn that the header lacks, [shape_from_header] raises
    the KeyError of NAXISk, and so do [skip_data] and [hdu]. *)
Theorem missing_axis_raises (P : platform) (header : dict) (n : Z) (k : nat)
        (granularity : Z) (fp : file) :
  dict_get header "NAXIS" = Some (VInt n) ->
  (k < Z.to_nat n)%nat ->
  dict_get header ("NAXIS" ++ Py.str_of_nat (k + 1)) = None ->
  (forall j, (j < k)%nat ->
     dict_get header ("NAXIS" ++ Py.str_of_nat (j + 1)) <> None) ->
  let e := KeyError ("NAXIS" ++ Py.str_of_nat (k + 1)) in
  shape_from_header header = Raise e
  /\ skip_data P fp header = Raise e
  /\ hdu P granularity fp header = Raise e.
Proof.
  intros HN Hk Hnone Hbefore e.
  assert (H : shape_from_header header = Raise e).
  { unfold shape_from_header, dict_item. rewrite HN. cbn [bind as_int].
    replace (n >? 0) with true by (symmetry; apply Z.gtb_lt; lia).
    rewrite (axes_missing header (Z.to_nat n) 0 k Hk Hnone Hbefore).
    reflexivity. }
  unfold skip_data, hdu. rewrite H. auto.
Qed.

Lemma missing_axis_raises_witness :
  let header : dict :=
    [("BITPIX" : str, VInt 8); ("NAXIS" : str, VInt 2);
     ("NAXIS1" : str, VInt 3)] in
  hdu sample_platform 4096 sample_empty header = Raise (KeyError "NAXIS2").
Proof.
  intros header.
  refine (proj2 (proj2 (missing_axis_raises sample_platform header 2 1 4096
                                            sample_empty
                          eq_refl _ eq_refl _))).
  - vm_compute. lia.
  - intros j Hj. assert (j = 0)%nat by lia. subst j. discriminate.
Defined.

(** ** Skipping and mapping the data *)

Lemma seek_cur_ok (P : platform) fp offset fp' :
  seek_cur P fp offset = Ok fp' ->
  content fp' = content fp /\ tell fp' = tell fp + offset.
Proof.
  unfold seek_cur. destruct (_ || _); [discriminate|].
  destruct (Z.ltb_spec (tell fp + offset) 0); [discriminate|].
  cbn [orb]. destruct (_ <? _); [discriminate|].
  intros [= <-]. unfold tell in *. cbn [content pos].
  split; [reflexivity | lia].
Qed.

Lemma padding n :
  let nskip := n + (2880 - n mod 2880) mod 2880 in
  nskip mod 2880 = 0 /\ n <= nskip < n + 2880.
Proof.
  cbv zeta.
  pose proof (Z.mod_pos_bound n 2880 ltac:(lia)) as Hb.
  pose proof (Z.div_mod n 2880 ltac:(lia)) as Hd.
  destruct (Z.eq_dec (n mod 2880) 0) as [E|E].
  - rewrite E. change ((2880 - 0) mod 2880) with 0. rewrite Z.add_0_r.
    split; [exact E | lia].
  - rewrite (Z.mod_small (2880 - n mod 2880)) by lia.
    split; [|lia].
    replace (n + (2880 - n mod 2880)) with ((n / 2880 + 1) * 2880) by lia.
    apply Z.mod_mul. lia.
Qed.

(** The operands of the size of the data, when they are integers. *)
Lemma skip_data_inv (P : platform) fp header fp' :
  skip_data P fp header = Ok fp' ->
  (shape_from_header header = Ok None /\ fp' = fp)
  \/ exists shape bitpix b p n,
      shape_from_header header = Ok (Some shape)
      /\ dict_get header "BITPIX" = Some bitpix
      /\ as_int bitpix = Some b
      /\ as_int (dict_get_default header "PCOUNT" (VInt 0)) = Some p
      /\ prod shape = Ok n
      /\ seek_cur P fp (let ndata := Z.abs b / 8 * (p + n) in
                      ndata + (2880 - ndata mod 2880) mod 2880) = Ok fp'.
Proof.
  unfold skip_data.
  destruct (shape_from_header header) as [[shape|]| |] eqn:Es;
    try discriminate; cbn [bind]; [|intros [= <-]; auto].
  unfold dict_item.
  destruct (dict_get header "BITPIX") as [bitpix|] eqn:Eb; [|discriminate].
  cbn [bind]. unfold int_operand.
  destruct (as_int bitpix) as [b|] eqn:Ei; [|discriminate]. cbn [bind].
  destruct (as_int (dict_get_default header "PCOUNT" (VInt 0))) as [p|] eqn:Ep;
    [|discriminate]. cbn [bind].
  destruct (prod shape) as [n| |] eqn:En; try discriminate. cbn [bind].
  intros H. right. exists shape, bitpix, b, p, n. repeat split; auto.
Qed.

(** What [hdu] has computed and asked of the platform when it returns. *)
Lemma hdu_inv (P : platform) granularity fp header u :
  hdu P granularity fp header = Ok u ->
  exists dt,
    dtype_from_header header = Ok dt
    /\ ((shape_from_header header = Ok None
         /\ np_empty P dt = true
         /\ u = {| data := Empty dt; header := header |})
        \/ exists shape bitpix b g p n len,
            shape_from_header header = Ok (Some shape)
            /\ dict_get header "BITPIX" = Some bitpix
            /\ as_int bitpix = Some b
            /\ as_int (dict_get_default header "GCOUNT" (VInt 1)) = Some g
            /\ as_int (dict_get_default header "PCOUNT" (VInt 0)) = Some p
            /\ prod shape = Ok n
            /\ mmap_new P fp (tell fp mod granularity
                              + Z.abs b / 8 * g * (p + n))
                         (tell fp - tell fp mod granularity) = Some len
            /\ ndarray_new P (match dt with
                              | DFields _ => tl shape
                              | DScalar _ => shape
                              end) dt len (tell fp mod granularity) = true
            /\ exists dims,
                u = {| data := Mapped (tell fp - tell fp mod granularity)
                                      (tell fp mod granularity
                                       + Z.abs b / 8 * g * (p + n))
                                      dims dt (tell fp mod granularity);
                       header := header |}).
Proof.
  unfold hdu.
  destruct (shape_from_header header) as [[shape|]| |] eqn:Es;
    try discriminate; cbn [bind];
    (destruct (dtype_from_header header) as [dt| |] eqn:Ed;
     try discriminate); cbn [bind]; intros H; exists dt;
    (split; [reflexivity|]).
  - right. unfold dict_item in H.
    destruct (dict_get header "BITPIX") as [bitpix|] eqn:Eb; [|discriminate].
    cbn [bind] in H. unfold int_operand in H.
    destruct (as_int bitpix) as [b|] eqn:Ei; [|discriminate].
    cbn [bind] in H.
    destruct (as_int (dict_get_default header "GCOUNT" (VInt 1)))
      as [g|] eqn:Eg; [|discriminate]. cbn [bind] in H.
    destruct (as_int (dict_get_default header "PCOUNT" (VInt 0)))
      as [p|] eqn:Ep; [|discriminate]. cbn [bind] in H.
    destruct (prod shape) as [n| |] eqn:En; try discriminate.
    cbn [bind] in H. cbv zeta in H.
    destruct (mmap_new P fp _ _) as [len|] eqn:Em; [|discriminate].
    destruct (ndarray_new P _ dt len _) eqn:En'; [|discriminate].
    injection H as <-.
    exists shape, bitpix, b, g, p, n, len. repeat split; auto.
    eexists. reflexivity.
  - left. destruct (np_empty P dt) eqn:Ee; [|discriminate].
    injection H as <-. auto.
Qed.

(** X15: [skip_data] leaves the bytes of the file as they are and moves
    its position by a whole number of blocks of 2880 bytes, and not at
    all when the header has no axes. *)
Theorem skip_data_whole_blocks (P : platform) (fp fp' : file)
        (header : dict) :
  skip_data P fp header = Ok fp' ->
  content fp' = content fp
  /\ (tell fp' - tell fp) mod 2880 = 0
  /\ (shape_from_header header = Ok None -> fp' = fp).
Proof.
  intros H. apply skip_data_inv in H
    as [[Hs ->]|(shape & bitpix & b & p & n & Hs & _ & _ & _ & _ & H)].
  - rewrite Z.sub_diag. auto.
  - apply seek_cur_ok in H as [Hc Ht]. split; [exact Hc|]. split.
    + pose proof (padding (Z.abs b / 8 * (p + n))) as Hp.
      cbv zeta in Hp, Ht. destruct Hp as [Hp _].
      replace (tell fp' - tell fp)
        with (Z.abs b / 8 * (p + n)
              + (2880 - (Z.abs b / 8 * (p + n)) mod 2880) mod 2880) by lia.
      exact Hp.
    + rewrite Hs. discriminate.
Qed.

Lemma skip_data_whole_blocks_witness :
  exists fp',
    skip_data sample_platform sample_empty header_groups = Ok fp'
    /\ content fp' = content sample_empty
    /\ (tell fp' - tell sample_empty) mod 2880 = 0.
Proof.
  pose (fp' := {| content := content sample_empty; pos := 2880%nat |}).
  assert (H : skip_data sample_platform sample_empty header_groups = Ok fp')
    by (vm_compute; reflexivity).
  exists fp'. split; [exact H|].
  destruct (skip_data_whole_blocks _ _ _ _ H) as (Hc & Hm & _). auto.
Defined.

(** X16: for a header without GCOUNT, or with GCOUNT = 1, whose data
    [hdu] maps, [skip_data] moves the file past the bytes that [hdu]
    mapped and past the fewest bytes that bring the move to a whole
    number of blocks. *)
Theorem skip_data_covers_mapping (P : platform) (granularity : Z)
        (fp fp' : file) (header : dict) (u : HduArray)
        (buffer_offset buffer_length array_offset : Z)
        (shape : list Z) (dt : dtype) :
  dict_get_default header "GCOUNT" (VInt 1) = VInt 1 ->
  hdu P granularity fp header = Ok u ->
  data u = Mapped buffer_offset buffer_length shape dt array_offset ->
  skip_data P fp header = Ok fp' ->
  let nbytes := buffer_length - array_offset in
  let nskip := tell fp' - tell fp in
  nskip mod 2880 = 0 /\ nbytes <= nskip < nbytes + 2880.
Proof.
  intros Hg Hu Hd Hs.
  apply skip_data_inv in Hs
    as [[Hsh ->]|(sh & bitpix & b & p & n & Hsh & Hb & Hbi & Hp & Hn & Hs)];
    apply hdu_inv in Hu
      as (dt' & _ & [(Hsh' & _ & ->)
                    |(sh' & bitpix' & b' & g' & p' & n' & len & Hsh' & Hb'
                      & Hbi' & Hg' & Hp' & Hn' & _ & _ & dims & ->)]);
    try discriminate Hd; try congruence.
  cbn [data] in Hd. injection Hd as _ Hbl _ _ Hao.
  rewrite Hsh in Hsh'. injection Hsh' as <-.
  rewrite Hb in Hb'. injection Hb' as <-.
  rewrite Hbi in Hbi'. injection Hbi' as <-.
  rewrite Hp in Hp'. injection Hp' as <-.
  rewrite Hn in Hn'. injection Hn' as <-.
  rewrite Hg in Hg'. injection Hg' as <-.
  apply seek_cur_ok in Hs as [_ Ht].
  pose proof (padding (Z.abs b / 8 * (p + n))) as Hpad.
  cbv zeta in Hpad, Ht |- *.
  replace (buffer_length - array_offset) with (Z.abs b / 8 * (p + n))
    by (subst; lia).
  replace (tell fp' - tell fp)
    with (Z.abs b / 8 * (p + n)
          + (2880 - (Z.abs b / 8 * (p + n)) mod 2880) mod 2880) by lia.
  exact Hpad.
Qed.

(** On [sample_image], read up to its data: [hdu] maps the 4000 bytes of
    the image from the offset 4096 of the file, which holds them, and
    [skip_data] moves the file past the two blocks they are padded to. *)
Lemma skip_data_covers_mapping_witness :
  let header := header_image in
  let fp := sample_image_data in
  exists fp',
    snd (read_header (snd (read_header sample_image true)) false) = fp
    /\ hdu sample_platform 4096 fp header
       = Ok {| data := Mapped 4096 (1664 + 4000) [100; 20] (DScalar ">i2")
                              1664;
               header := header |}
    /\ skip_data sample_platform fp header = Ok fp'
    /\ (tell fp' - tell fp) mod 2880 = 0
    /\ 4000 <= tell fp' - tell fp < 4000 + 2880.
Proof.
  intros header fp.
  pose (fp' := {| content := content sample_image; pos := (4 * 2880)%nat |}).
  pose (u := {| data := Mapped 4096 (1664 + 4000) [100; 20] (DScalar ">i2")
                               1664;
                header := header |}).
  assert (Hs : skip_data sample_platform fp header = Ok fp')
    by (vm_compute; reflexivity).
  assert (Hu : hdu sample_platform 4096 fp header = Ok u)
    by (vm_compute; reflexivity).
  exists fp'. split; [vm_compute; reflexivity|].
  split; [exact Hu|]. split; [exact Hs|].
  pose proof (skip_data_covers_mapping sample_platform 4096 fp fp' header u
                _ _ _ _ _ eq_refl Hu eq_refl Hs) as H.
  cbv zeta in H. replace (1664 + 4000 - 1664) with 4000 in H by lia.
  exact H.
Defined.

(** X17: the mapping [hdu] asks for begins at a multiple of the
    allocation granularity at or before the position of the file, the
    array begins in it at the position of the file, less than one
    granule in, and the unit carries the header and the dtype that
    [dtype_from_header] gives. *)
Theorem hdu_mapping_aligned (P : platform) (granularity : Z) (fp : file)
        (header : dict) (u : HduArray) :
  0 < granularity ->
  hdu P granularity fp header = Ok u ->
  Fits.header u = header
  /\ match data u with
     | Empty dt =>
         shape_from_header header = Ok None
         /\ dtype_from_header header = Ok dt
     | Mapped buffer_offset buffer_length shape dt array_offset =>
         dtype_from_header header = Ok dt
         /\ buffer_offset mod granularity = 0
         /\ 0 <= buffer_offset
         /\ 0 <= array_offset < granularity
         /\ buffer_offset + array_offset = tell fp
     end.
Proof.
  intros Hg Hu.
  apply hdu_inv in Hu
    as (dt & Hdt & [(Hsh & _ & ->)
                   |(sh & bitpix & b & g & p & n & len & _ & _ & _ & _ & _
                     & _ & _ & _ & dims & ->)]);
    cbn [Fits.header data]; (split; [reflexivity|]); [auto|].
  pose proof (Z.mod_pos_bound (tell fp) granularity Hg) as Hb.
  pose proof (Z.div_mod (tell fp) granularity ltac:(lia)) as Hd.
  assert (Ht : 0 <= tell fp) by (unfold tell; lia).
  split; [exact Hdt|]. split.
  - replace (tell fp - tell fp mod granularity)
      with (tell fp / granularity * granularity) by lia.
    apply Z.mod_mul. lia.
  - split; [|split; [exact Hb | lia]].
    pose proof (Z.mod_le (tell fp) granularity Ht Hg). lia.
Qed.

(** On [sample_image], read up to its data at the position 5760: the
    mapping begins at 4096 and the array 1664 bytes into it. *)
Lemma hdu_mapping_aligned_witness :
  let header := header_image in
  let fp := sample_image_data in
  exists u,
    fst (read_header (snd (read_header sample_image true)) false) = Ok header
    /\ snd (read_header (snd (read_header sample_image true)) false) = fp
    /\ hdu sample_platform 4096 fp header = Ok u
    /\ data u = Mapped 4096 5664 [100; 20] (DScalar ">i2") 1664
    /\ 4096 mod 4096 = 0 /\ 4096 + 1664 = tell fp.
Proof.
  intros header fp.
  pose (u := {| data := Mapped 4096 5664 [100; 20] (DScalar ">i2") 1664;
                header := header |}).
  assert (Hu : hdu sample_platform 4096 fp header = Ok u)
    by (vm_compute; reflexivity).
  exists u. split; [vm_compute; reflexivity|].
  split; [vm_compute; reflexivity|].
  split; [exact Hu|]. split; [reflexivity|].
  destruct (hdu_mapping_aligned sample_platform 4096 fp header u
              ltac:(lia) Hu) as [_ H].
  cbn [data u] in H. destruct H as (_ & H1 & _ & _ & H2). auto.
Defined.

(** ** The formats of the fields of a table *)

Lemma code_classes code base :
  lookup_tform TFORM_DTYPE_MAP [code] = Some base ->
  Py.one_of "LXBIJKAEDCM" code = true /\ is_digit code = false.
Proof.
  destruct code as [[] [] [] [] [] [] [] []]; vm_compute; intros H;
    try discriminate H; auto.
Qed.

Lemma code_not_digit code :
  Py.one_of "LXBIJKAEDCM" code = true -> is_digit code = false.
Proof.
  destruct code as [[] [] [] [] [] [] [] []]; vm_compute; intros H;
    try discriminate H; auto.
Qed.

Lemma firstn_consumed {A} (a b : list A) :
  firstn (length (a ++ b) - length b) (a ++ b) = a.
Proof.
  rewrite length_app.
  replace (length a + length b - length b)%nat with (length a) by lia.
  rewrite firstn_app, firstn_all, Nat.sub_diag. simpl. apply app_nil_r.
Qed.

Lemma run_code_tail code rest m :
  Py.one_of "LXBIJKAEDCM" code = true ->
  Forall (fun c => not_newline c = true) rest ->
  run (Group "value" (Chr (Py.one_of "LXBIJKAEDCM"))
       >> Star (Chr (fun c => negb (Ascii.eqb c "010"))))
      (code :: rest) m at_end
  = Some (("value" : str, [code]) :: m).
Proof.
  intros Hc Hr. rewrite run_cat, run_group, run_chr_cons, Hc.
  apply star_chr_all; [exact Hr|].
  change (code :: rest) with ([code] ++ rest). now rewrite firstn_consumed.
Qed.

Lemma fullmatch_tform count code rest :
  Forall (fun c => is_digit c = true) count ->
  Py.one_of "LXBIJKAEDCM" code = true ->
  Forall (fun c => not_newline c = true) rest ->
  fullmatch tform_regex (count ++ code :: rest)
  = Some (("value" : str, [code])
            :: match count with
               | [] => []
               | _ => [("count" : str, count)]
               end).
Proof.
  intros Hcount Hcode Hrest.
  pose proof (code_not_digit code Hcode) as Hnd.
  unfold fullmatch, tform_regex. rewrite run_cat. unfold Opt.
  rewrite run_alt, run_group. unfold Plus. rewrite run_cat.
  destruct count as [|c ds].
  - cbn [app]. rewrite run_chr_cons. fold (is_digit code). rewrite Hnd.
    cbn [run]. now apply run_code_tail.
  - inversion Hcount as [|? ? Hc Hds]; subst.
    cbn [app]. rewrite run_chr_cons. fold (is_digit c). rewrite Hc.
    erewrite star_chr_app; [reflexivity | exact Hds |].
    rewrite star_chr_cons. fold (is_digit code). rewrite Hnd.
    change (c :: ds ++ code :: rest) with ((c :: ds) ++ code :: rest).
    rewrite firstn_consumed. now apply run_code_tail.
Qed.

(** X18: a TFORM made of a repeat count [count] (digits, or none), a
    type code of the table and characters that are not newlines is given
    a format that does not depend on those characters: the format of the
    code alone without a count; with a count, the count before the format
    of the code, but for A the count after it, and for X the count raised
    by one when it is not a multiple of 8. *)
Theorem field_format_accepts (n : nat) (count rest : str) (code : ascii)
        (base : str) :
  Forall (fun c => is_digit c = true) count ->
  lookup_tform TFORM_DTYPE_MAP [code] = Some base ->
  Forall (fun c => not_newline c = true) rest ->
  field_format n (count ++ code :: rest)
  = Ok (">"%char
        :: match count with
           | [] => base
           | _ =>
               if Ascii.eqb code "X" then
                 let c := Py.int_of_str count in
                 Py.str_of_nat
                   (Z.to_nat (if negb (c mod 8 =? 0) then c + 1 else c))
                 ++ base
               else if Ascii.eqb code "A" then base ++ count
               else count ++ base
           end).
Proof.
  intros Hcount Hbase Hrest.
  destruct (code_classes code base Hbase) as [Hcode _].
  unfold field_format. rewrite (fullmatch_tform count code rest) by assumption.
  cbn [group Py.str_eqb list_ascii_of_string Ascii.eqb Bool.eqb andb].
  rewrite Hbase.
  destruct count as [|c ds]; [reflexivity|].
  cbn [group Py.str_eqb list_ascii_of_string andb].
  replace (Ascii.eqb "v" "c") with false by reflexivity.
  cbn [andb]. replace (Py.str_eqb ("count" : str) ("count" : str)) with true
    by reflexivity.
  rewrite !andb_true_r. reflexivity.
Qed.

Lemma field_format_accepts_witness :
  Forall (fun c => is_digit c = true) ("12" : str)
  /\ lookup_tform TFORM_DTYPE_MAP ["E"%char] = Some ("f4" : str)
  /\ Forall (fun c => not_newline c = true) ("(3,4) any" : str)
  /\ field_format 0 "12E(3,4) any" = Ok (">12f4" : str).
Proof.
  assert (H1 : Forall (fun c => is_digit c = true) ("12" : str))
    by (repeat constructor).
  assert (H2 : lookup_tform TFORM_DTYPE_MAP ["E"%char] = Some ("f4" : str))
    by reflexivity.
  assert (H3 : Forall (fun c => not_newline c = true) ("(3,4) any" : str))
    by (repeat constructor).
  split; [exact H1|]. split; [exact H2|]. split; [exact H3|].
  exact (field_format_accepts 0 "12" "(3,4) any" "E" "f4" H1 H2 H3).
Defined.

Lemma lstrip_digits_app count code rest :
  Forall (fun c => is_digit c = true) count -> is_digit code = false ->
  Py.lstrip_with is_digit (count ++ code :: rest) = code :: rest.
Proof.
  intros Hc Hd. induction Hc as [|c ds Hc Hds IH]; simpl.
  - now rewrite Hd.
  - now rewrite Hc.
Qed.

Lemma tform_regex_classes :
  classes_within not_newline
    (Star (Chr (fun c => negb (Ascii.eqb c "010")))).
Proof. simpl. auto. Qed.

Lemma matches_tform s m :
  matches tform_regex s [] [] m ->
  exists count code rest,
    s = count ++ code :: rest
    /\ Forall (fun c => is_digit c = true) count
    /\ Py.one_of "LXBIJKAEDCM" code = true
    /\ Forall (fun c => not_newline c = true) rest.
Proof.
  unfold tform_regex. intros H.
  repeat match goal with
         | H : matches (Cat _ _) _ _ _ _ |- _ => inv H
         end.
  match goal with
  | H : matches (Star _) _ _ _ _ |- _ =>
      destruct (matches_prefix not_newline _ _ _ _ _ tform_regex_classes H)
        as (rest & Hrest & Frest); clear H
  end.
  rewrite app_nil_r in Hrest. subst.
  match goal with
  | H : matches (Group _ (Chr _)) _ _ _ _ |- _ => inv H
  end.
  match goal with
  | H : matches (Chr _) _ _ _ _ |- _ => inv H
  end.
  match goal with
  | H : matches (Opt _) _ _ _ _ |- _ => unfold Opt in H; inv H
  end.
  - match goal with
    | H : matches (Group _ (Plus _)) _ _ _ _ |- _ => inv H
    end.
    match goal with
    | H : matches ?r ?s ?s' _ _ |- _ =>
        assert (Hcl : classes_within is_digit r) by (simpl; auto);
        destruct (matches_prefix is_digit _ _ _ _ _ Hcl H)
          as (count & -> & Fc)
    end.
    eexists count, _, rest. repeat split; auto.
  - match goal with
    | H : matches Eps _ _ _ _ |- _ => inv H
    end.
    eexists [], _, rest. repeat split; auto.
Qed.

(** X19: a TFORM that is not digits or none, a type code and characters
    other than newlines makes [field_format] raise the ValueError of an
    invalid format, which names the field by its number from 1. *)
Theorem field_format_rejects (n : nat) (tform : str) :
  tform_ok tform = false ->
  field_format n tform = Raise (ValueError (InvalidTform (n + 1) tform)).
Proof.
  intros Hno. unfold field_format.
  destruct (fullmatch tform_regex tform) as [m|] eqn:E; [exfalso | reflexivity].
  apply run_sound in E as (s' & m' & Hm & He).
  unfold at_end in He. destruct s'; [|discriminate].
  apply matches_tform in Hm as (count & code & rest & -> & Hc & Hcode & Hr).
  unfold tform_ok in Hno.
  rewrite lstrip_digits_app in Hno by (auto using code_not_digit).
  rewrite Hcode in Hno. cbn [andb] in Hno.
  assert (forallb not_newline rest = true) by (apply forallb_forall;
    rewrite Forall_forall in Hr; exact Hr).
  congruence.
Qed.

Lemma field_format_rejects_witness :
  tform_ok "1PE(12)" = false
  /\ field_format 2 "1PE(12)" = Raise (ValueError (InvalidTform 3 "1PE(12)")).
Proof.
  assert (H : tform_ok "1PE(12)" = false) by reflexivity.
  split; [exact H|]. exact (field_format_rejects 2 _ H).
Defined.

Lemma bintable_fields_ok header todo : forall n fields,
  bintable_fields header n todo = Ok fields ->
  length fields = todo
  /\ forall k, (k < todo)%nat ->
       exists ttype tform fmt,
         dict_get_default header ("TTYPE" ++ Py.str_of_nat (n + k + 1))
                          (VStr ("f" ++ Py.str_of_nat (n + k)))
         = VStr ttype
         /\ dict_get header ("TFORM" ++ Py.str_of_nat (n + k + 1))
            = Some (VStr tform)
         /\ field_format (n + k) tform = Ok fmt
         /\ nth_error fields k = Some (Py.rstrip ttype, fmt).
Proof.
  induction todo as [|todo IH]; intros n fields H; cbn [bintable_fields] in H.
  - injection H as <-. split; [reflexivity | intros k Hk; lia].
  - unfold dict_item in H.
    destruct (dict_get header ("TFORM" ++ Py.str_of_nat (n + 1)))
      as [tform|] eqn:Ef; [|discriminate]. cbn [bind] in H.
    destruct (dict_get_default header ("TTYPE" ++ Py.str_of_nat (n + 1))
                               (VStr ("f" ++ Py.str_of_nat n)))
      as [ttype| | | |] eqn:Et; try discriminate. cbn [bind] in H.
    destruct tform as [tform| | | |]; try discriminate.
    destruct (field_format n tform) as [fmt| |] eqn:Efmt; try discriminate.
    cbn [bind] in H.
    destruct (bintable_fields header (S n) todo) as [rest| |] eqn:Er;
      try discriminate.
    injection H as <-. apply IH in Er as [Hl Hk].
    split; [simpl; now rewrite Hl|].
    intros [|k] Hlt.
    + rewrite !Nat.add_0_r. exists ttype, tform, fmt. auto.
    + destruct (Hk k ltac:(lia)) as (tt & tf & f & H1 & H2 & H3 & H4).
      replace (S n + k)%nat with (n + S k)%nat in * by lia.
      exists tt, tf, f. auto.
Qed.

(** X20: the dtype [bintable_dtype] returns has one field for each index
    from 1 to TFIELDS, in that order (none when TFIELDS is not above
    zero): field [k+1] has the name TTYPE[k+1] without its trailing
    spaces, or [f] followed by [k] when the header has no such keyword,
    and the format that [field_format] gives to TFORM[k+1]. *)
Theorem bintable_fields_in_order (header : dict) (fields : list (str * str)) :
  bintable_dtype header = Ok (DFields fields) ->
  exists tfields t,
    dict_get header "TFIELDS" = Some tfields
    /\ as_int tfields = Some t
    /\ length fields = Z.to_nat t
    /\ forall k, (k < Z.to_nat t)%nat ->
         exists ttype tform fmt,
           dict_get_default header ("TTYPE" ++ Py.str_of_nat (k + 1))
                            (VStr ("f" ++ Py.str_of_nat k))
           = VStr ttype
           /\ dict_get header ("TFORM" ++ Py.str_of_nat (k + 1))
              = Some (VStr tform)
           /\ field_format k tform = Ok fmt
           /\ nth_error fields k = Some (Py.rstrip ttype, fmt).
Proof.
  unfold bintable_dtype, dict_item.
  destruct (dict_get header "TFIELDS") as [tfields|] eqn:Et; [|discriminate].
  cbn [bind]. destruct (as_int tfields) as [t|] eqn:Ei; [|discriminate].
  destruct (bintable_fields header 0 (Z.to_nat t)) as [fs| |] eqn:E;
    try discriminate.
  cbn [bind]. intros [= <-]. apply bintable_fields_ok in E as [Hl Hk].
  exists tfields, t. repeat split; auto.
Qed.

Lemma bintable_fields_in_order_witness :
  bintable_dtype header_table
  = Ok (DFields [("ID" : str, ">1i4" : str); ("f1" : str, ">U10" : str)])
  /\ exists tfields t,
      dict_get header_table "TFIELDS" = Some tfields
      /\ as_int tfields = Some t
      /\ length [("ID" : str, ">1i4" : str); ("f1" : str, ">U10" : str)]
         = Z.to_nat t.
Proof.
  assert (H : bintable_dtype header_table
              = Ok (DFields [("ID" : str, ">1i4" : str);
                             ("f1" : str, ">U10" : str)])) by reflexivity.
  split; [exact H|].
  destruct (bintable_fields_in_order _ _ H) as (tf & t & H1 & H2 & H3 & _).
  exists tf, t. auto.
Defined.

(** ** The exceptions of load *)

Lemma raises_bind {A B} (x : outcome A) (f : A -> outcome B) :
  raises_data_errors x -> (forall a, raises_data_errors (f a)) ->
  raises_data_errors (bind x f).
Proof. destruct x; simpl; auto. Qed.

Lemma raises_dict_item d key : raises_data_errors (dict_item d key).
Proof. unfold dict_item. destruct (dict_get d key); exact I. Qed.

Lemma raises_int_operand v : raises_data_errors (int_operand v).
Proof. unfold int_operand. destruct (as_int v); exact I. Qed.

Lemma raises_axes header n : forall i, raises_data_errors (axes header i n).
Proof.
  induction n as [|n IH]; intros i; cbn [axes]; [exact I|].
  apply raises_bind; [apply raises_dict_item|]. intros v.
  apply raises_bind; [apply IH|]. intros rest. exact I.
Qed.

Lemma raises_shape header : raises_data_errors (shape_from_header header).
Proof.
  unfold shape_from_header. apply raises_bind; [apply raises_dict_item|].
  intros [s|b|i|f|re im]; try exact I.
  - destruct (_ >? 0); [|exact I].
    apply raises_bind; [apply raises_axes | intros; exact I].
  - destruct (_ >? 0); [|exact I].
    apply raises_bind; [apply raises_axes | intros; exact I].
  - destruct (float_gt0 f); exact I.
Qed.

Lemma raises_prod shape : raises_data_errors (prod shape).
Proof.
  induction shape as [|v shape IH]; cbn [prod]; [exact I|].
  apply raises_bind; [apply raises_int_operand|]. intros x.
  apply raises_bind; [exact IH | intros; exact I].
Qed.

Lemma raises_field_format n tform : raises_data_errors (field_format n tform).
Proof.
  unfold field_format. destruct (fullmatch tform_regex tform); [|exact I].
  destruct (group _ "value"); [|exact I].
  destruct (lookup_tform _ _); exact I.
Qed.

Lemma raises_bintable_fields header todo : forall n,
  raises_data_errors (bintable_fields header n todo).
Proof.
  induction todo as [|todo IH]; intros n; cbn [bintable_fields]; [exact I|].
  apply raises_bind; [apply raises_dict_item|]. intros tform.
  apply raises_bind; [destruct (dict_get_default _ _ _); exact I|].
  intros name.
  apply raises_bind;
    [destruct tform; try exact I; apply raises_field_format|].
  intros fmt. apply raises_bind; [apply IH | intros; exact I].
Qed.

Lemma raises_dtype header : raises_data_errors (dtype_from_header header).
Proof.
  unfold dtype_from_header.
  destruct (dict_get_default header "XTENSION" (VStr "IMAGE")); try exact I.
  destruct (Py.str_eqb _ "IMAGE").
  - unfold image_dtype. apply raises_bind; [apply raises_dict_item|].
    intros b. destruct (lookup_bitpix _ _); exact I.
  - destruct (Py.str_eqb _ "BINTABLE"); [|exact I].
    unfold bintable_dtype. apply raises_bind; [apply raises_dict_item|].
    intros t. destruct (as_int t); [|exact I].
    apply raises_bind; [apply raises_bintable_fields | intros; exact I].
Qed.

Lemma raises_skip_data (P : platform) fp header :
  raises_data_errors (skip_data P fp header).
Proof.
  unfold skip_data. apply raises_bind; [apply raises_shape|].
  intros [shape|]; [|exact I].
  apply raises_bind; [apply raises_dict_item|]. intros b.
  apply raises_bind; [apply raises_int_operand|]. intros x.
  apply raises_bind; [apply raises_int_operand|]. intros p.
  apply raises_bind; [apply raises_prod|]. intros n.
  unfold seek_cur. destruct (_ || _); [exact I|].
  destruct (_ || _); exact I.
Qed.

Lemma raises_hdu (P : platform) granularity fp header :
  raises_data_errors (hdu P granularity fp header).
Proof.
  unfold hdu. apply raises_bind; [apply raises_shape|]. intros shape.
  apply raises_bind; [apply raises_dtype|]. intros dt.
  destruct shape as [shape|]; [|destruct (np_empty P dt); exact I].
  apply raises_bind; [apply raises_dict_item|]. intros b.
  apply raises_bind; [apply raises_int_operand|]. intros x.
  apply raises_bind; [apply raises_int_operand|]. intros g.
  apply raises_bind; [apply raises_int_operand|]. intros p.
  apply raises_bind; [apply raises_prod|]. intros n. cbv zeta.
  destruct (mmap_new P fp _ _) as [len|]; [|exact I].
  destruct (ndarray_new P _ dt len _); exact I.
Qed.

Lemma not_FITS_not_data e :
  data_error e \/ malformed e -> e <> TypeError "not a FITS file".
Proof.
  intros [H|[->|[->|(n & kw & exc & _ & ->)]]]; try discriminate.
  intros ->. exact H.
Qed.

Lemma load_loop_raises (P : platform) granularity fuel :
  forall fp header hdus e,
  fst (load_loop P fuel granularity fp header hdus) = Raise e ->
  data_error e \/ malformed e.
Proof.
  induction fuel as [|fuel IH]; intros fp header hdus e; cbn [load_loop].
  - discriminate.
  - pose proof (raises_skip_data P fp header) as Hs.
    destruct (skip_data P fp header) as [fp1|e1|];
      [|intros [= <-]; auto|contradiction].
    pose proof (read_header_first fp1 false) as Hr.
    destruct (read_header fp1 false) as [[h|e1|] fp2]; cbn [fst] in Hr.
    + pose proof (raises_hdu P granularity fp2 h) as Hh.
      destruct (hdu P granularity fp2 h) as [u|e1|];
        [apply IH | intros [= <-]; auto | contradiction].
    + destruct (first_fault fp1 false).
      * subst e1. discriminate.
      * destruct e1; intros [= <-]; auto.
    + discriminate.
Qed.

(** X22: [load] raises the TypeError 'not a FITS file' exactly when the
    first block of the source is short, or is complete and printable
    with a first record that fails the grammar of values or is not
    SIMPLE with the value T. *)
Theorem load_not_a_FITS_file (P : platform) (fuel : nat) (granularity : Z)
        (fp : file) :
  fst (load P fuel granularity fp) = Raise (TypeError "not a FITS file")
  <-> first_fault fp true = true.
Proof.
  unfold load. pose proof (read_header_first fp true) as Hr.
  pose proof (read_header_total fp true) as Ht.
  destruct (read_header fp true) as [[h|e|] fp1]; cbn [fst] in Hr, Ht.
  - rewrite Hr. split; [|discriminate]. intros H. exfalso.
    pose proof (raises_hdu P granularity fp1 h) as Hh.
    destruct (hdu P granularity fp1 h) as [u|e|].
    + pose proof (raises_dict_item h "EXTEND") as He.
      destruct (dict_item h "EXTEND") as [v|e|].
      * destruct v as [s|[|]|i|f|re im]; try discriminate H.
        apply load_loop_raises, not_FITS_not_data in H. now apply H.
      * cbn [fst] in H. injection H as ->. exact He.
      * discriminate H.
    + cbn [fst] in H. injection H as ->. exact Hh.
    + discriminate H.
  - destruct (first_fault fp true).
    + subst e. split; reflexivity.
    + split; [|discriminate]. intros H. exfalso.
      destruct e; try discriminate H.
      * now apply malformed_not_HDUError in Hr.
      * cbn [fst] in H.
        apply (not_FITS_not_data (TypeError msg)); [now right | congruence].
  - now contradiction Ht.
Qed.

Lemma load_not_a_FITS_file_witness :
  fst (load sample_platform 1 4096 sample_empty)
  = Raise (TypeError "not a FITS file").
Proof.
  apply (proj2 (load_not_a_FITS_file sample_platform 1 4096 sample_empty)).
  vm_compute. reflexivity.
Defined.

(** ** The list returned by load *)

Lemma hdu_header (P : platform) granularity fp header u :
  hdu P granularity fp header = Ok u -> Fits.header u = header.
Proof.
  intros H.
  apply hdu_inv in H
    as (dt & _ & [(_ & _ & ->)
                 |(sh & bitpix & b & g & p & n & len & _ & _ & _ & _ & _
                   & _ & _ & _ & dims & ->)]); reflexivity.
Qed.

Lemma load_loop_extensions (P : platform) granularity fuel :
  forall fp header hdus res fp',
  load_loop P fuel granularity fp header hdus = (Ok res, fp') ->
  exists more, res = hdus ++ more
    /\ Forall (fun u => extension_header (Fits.header u)) more.
Proof.
  induction fuel as [|fuel IH]; intros fp header hdus res fp';
    cbn [load_loop]; [discriminate|].
  destruct (skip_data P fp header) as [fp1|e1|]; try discriminate.
  destruct (read_header fp1 false) as [[h|e1|] fp2] eqn:Hr;
    try discriminate.
  - destruct (hdu P granularity fp2 h) as [u|e1|] eqn:Hu; try discriminate.
    intros H. apply IH in H as (more & -> & Hm).
    exists (u :: more). rewrite <- app_assoc. split; [reflexivity|].
    constructor; [|exact Hm].
    rewrite (hdu_header _ _ _ _ _ Hu).
    exact (read_header_head _ _ _ _ Hr).
  - destruct e1; try discriminate. intros [= <- <-].
    exists []. now rewrite app_nil_r.
Qed.

(** X23: a list returned by [load] is not empty; the header of its first
    unit begins with SIMPLE = True, and the header of every later unit
    begins with XTENSION and a string. *)
Theorem load_units (P : platform) (fuel : nat) (granularity : Z)
    (fp fp' : file) (hdus : list HduArray) :
  load P fuel granularity fp = (Ok hdus, fp') ->
  exists u rest, hdus = u :: rest
    /\ primary_header (Fits.header u)
    /\ Forall (fun u' => extension_header (Fits.header u')) rest.
Proof.
  unfold load.
  destruct (read_header fp true) as [[h|e|] fp1] eqn:Hr;
    [| destruct e; discriminate | discriminate].
  destruct (hdu P granularity fp1 h) as [u|e|] eqn:Hu; try discriminate.
  assert (Hp : primary_header (Fits.header u)).
  { rewrite (hdu_header _ _ _ _ _ Hu). exact (read_header_head _ _ _ _ Hr). }
  destruct (dict_item h "EXTEND") as [v|e|]; try discriminate.
  assert (Hone : (Ok [u], fp1) = (Ok hdus, fp') ->
    exists u0 rest, hdus = u0 :: rest /\ primary_header (Fits.header u0)
      /\ Forall (fun u' => extension_header (Fits.header u')) rest).
  { intros [= <- <-]. exists u, []. auto. }
  destruct v as [s|[|]|i|f|re im]; try exact Hone.
  intros H. apply load_loop_extensions in H as (more & -> & Hm).
  exists u, more. auto.
Qed.

Lemma load_units_witness :
  exists u rest,
    [ {| data := Empty (DScalar ">u1");
         header := [("SIMPLE" : str, VBool true); ("BITPIX" : str, VInt 8);
                    ("NAXIS" : str, VInt 0); ("EXTEND" : str, VBool true)] |};
      {| data := Empty (DScalar ">i2");
         header := [("XTENSION" : str, VStr "IMAGE   ");
                    ("BITPIX" : str, VInt 16); ("NAXIS" : str, VInt 0)] |} ]
    = u :: rest
    /\ primary_header (Fits.header u)
    /\ Forall (fun u' => extension_header (Fits.header u')) rest.
Proof.
  apply (load_units sample_platform 3 4096 sample_two_units
           {| content := content sample_two_units; pos := (2 * 2880)%nat |}).
  vm_compute. reflexivity.
Defined.

(** X24: when the primary header is read and [hdu] returns its unit,
    the header has EXTEND = True, its data can be skipped, and no
    extension header begins there (the source ends, or the next block is
    printable but its first record fails the grammar of values or is not
    XTENSION with a string), [load] returns the primary unit alone,
    without an error. *)
Theorem load_ends_quietly (P : platform) (fuel : nat) (granularity : Z)
    (fp fp1 fp2 : file) (header : dict) (u : HduArray) :
  read_header fp true = (Ok header, fp1) ->
  hdu P granularity fp1 header = Ok u ->
  dict_get header "EXTEND" = Some (VBool true) ->
  skip_data P fp1 header = Ok fp2 ->
  first_fault fp2 false = true ->
  fst (load P (S fuel) granularity fp) = Ok [u].
Proof.
  intros Hr Hu He Hs Hf. unfold load. rewrite Hr, Hu.
  unfold dict_item. rewrite He. cbn [load_loop]. rewrite Hs.
  pose proof (read_header_first fp2 false) as H. rewrite Hf in H.
  destruct (read_header fp2 false) as [[h|e|] fp3]; cbn [fst] in H;
    try discriminate H.
  subst e. reflexivity.
Qed.

Lemma load_ends_quietly_witness :
  fst (load sample_platform 1 4096 sample_extend_alone)
  = Ok [ {| data := Empty (DScalar ">u1");
            header := [("SIMPLE" : str, VBool true); ("BITPIX" : str, VInt 8);
                       ("NAXIS" : str, VInt 0);
                       ("EXTEND" : str, VBool true)] |} ].
Proof.
  apply (load_ends_quietly sample_platform 0 4096 sample_extend_alone
           {| content := content sample_extend_alone; pos := 2880 |}
           {| content := content sample_extend_alone; pos := 2880 |}
           [("SIMPLE" : str, VBool true); ("BITPIX" : str, VInt 8);
            ("NAXIS" : str, VInt 0); ("EXTEND" : str, VBool true)]);
    vm_compute; reflexivity.
Defined.
